(** * Invoicing and payment reconciliation: the database triggers and the
      invoice form of the property-management application

    The development embeds
    - the invoice schema and its PL/pgSQL functions ([generate_invoice_number],
      [set_invoice_number], [update_invoice_totals], [void_invoice_item],
      [void_invoice]),
    - the payment schema and its trigger function ([update_invoice_status]),
    - the client side of invoice creation ([calculateTotals], [handleSubmit]
      of CreateInvoiceForm.tsx).

    Conventions.  SQL [numeric] and JavaScript [number] values are exact
    rationals ([Q]); equalities between amounts are stated with [==].  A
    [uuid] is an opaque key ([nat]).  A table is the list of its rows.
    Columns that no function below reads or writes (owner, property, unit,
    tenant, dates, descriptions of payments) are left out of the rows. *)

From Stdlib Require Import List String Ascii Bool Arith ZArith QArith Lqa Lia.
From Stdlib Require Import Qround DecimalString Permutation.
Import ListNotations.
Open Scope Q_scope.

(* ================================================================== *)
(** ** Schema *)

Definition uuid := nat.
Bind Scope nat_scope with uuid.

Inductive invoice_status :=
  draft | sent | paid | partially_paid | overdue | cancelled.

Inductive item_status := active | void.

Inductive item_type := rent | utility | deposit | tax | other.

(** [payments.status] admits the single value 'confirmed'. *)
Inductive payment_status := confirmed.

(** [utilities.status] and [deposits.status]. *)
Inductive source_status := pending | saved | invoiced.

Record invoice := mk_invoice {
  inv_id : uuid;
  invoice_number : string;
  subtotal : Q;
  tax_amount : Q;
  total_amount : Q;
  inv_status : invoice_status
}.

Record invoice_item := mk_item {
  item_id : uuid;
  item_invoice_id : option uuid;
  type : item_type;
  description : string;
  amount : Q;
  reference_id : option uuid;
  item_st : item_status
}.

Record payment := mk_payment {
  pay_id : uuid;
  pay_invoice_id : option uuid;
  pay_amount : Q;
  pay_status : payment_status
}.

(** A row of [utilities] or of [deposits]: a billable source. *)
Record source := mk_source {
  src_id : uuid;
  src_amount : Q;
  src_status : source_status
}.

Record db := mk_db {
  invoices : list invoice;
  invoice_items : list invoice_item;
  payments : list payment;
  utilities : list source;
  deposits : list source;
  invoice_number_seq : Z
}.

Definition with_invoices (f : list invoice -> list invoice) (d : db) : db :=
  mk_db (f (invoices d)) (invoice_items d) (payments d)
        (utilities d) (deposits d) (invoice_number_seq d).

Definition with_items (f : list invoice_item -> list invoice_item) (d : db) : db :=
  mk_db (invoices d) (f (invoice_items d)) (payments d)
        (utilities d) (deposits d) (invoice_number_seq d).

Definition with_payments (f : list payment -> list payment) (d : db) : db :=
  mk_db (invoices d) (invoice_items d) (f (payments d))
        (utilities d) (deposits d) (invoice_number_seq d).

Definition with_utilities (f : list source -> list source) (d : db) : db :=
  mk_db (invoices d) (invoice_items d) (payments d)
        (f (utilities d)) (deposits d) (invoice_number_seq d).

Definition with_deposits (f : list source -> list source) (d : db) : db :=
  mk_db (invoices d) (invoice_items d) (payments d)
        (utilities d) (f (deposits d)) (invoice_number_seq d).

Definition with_seq (n : Z) (d : db) : db :=
  mk_db (invoices d) (invoice_items d) (payments d)
        (utilities d) (deposits d) n.

(* ================================================================== *)
(** ** SQL building blocks *)

(** [SUM] over no row is NULL. *)
Fixpoint SUM (xs : list Q) : option Q :=
  match xs with
  | [] => None
  | x :: r => Some (match SUM r with None => x | Some s => x + s end)
  end.

Definition COALESCE {A : Type} (x : option A) (dflt : A) : A :=
  match x with Some v => v | None => dflt end.

(** [a = b] in a WHERE clause: a comparison with NULL selects no row. *)
Definition sql_eq (a b : option uuid) : bool :=
  match a, b with
  | Some x, Some y => Nat.eqb x y
  | _, _ => false
  end.

Definition is_active (it : invoice_item) : bool :=
  match item_st it with active => true | void => false end.

(** [SELECT amount FROM invoice_items WHERE invoice_id = k AND status = 'active']. *)
Definition active_amounts (k : option uuid) (items : list invoice_item) : list Q :=
  map amount
      (filter (fun it => sql_eq (item_invoice_id it) k && is_active it) items).

(** [UPDATE invoices SET ... WHERE id = k]. *)
Definition update_invoices_where_id
    (k : option uuid) (f : invoice -> invoice) (d : db) : db :=
  with_invoices
    (map (fun inv => if sql_eq (Some (inv_id inv)) k then f inv else inv)) d.

Definition set_subtotal (s : Q) (inv : invoice) : invoice :=
  mk_invoice (inv_id inv) (invoice_number inv) s (tax_amount inv)
             (total_amount inv) (inv_status inv).

Definition set_total_from_parts (inv : invoice) : invoice :=
  mk_invoice (inv_id inv) (invoice_number inv) (subtotal inv) (tax_amount inv)
             (subtotal inv + tax_amount inv) (inv_status inv).

Definition set_status (s : invoice_status) (inv : invoice) : invoice :=
  mk_invoice (inv_id inv) (invoice_number inv) (subtotal inv) (tax_amount inv)
             (total_amount inv) s.


(* ================================================================== *)
(** ** The totals trigger *)

Inductive tg_op := INSERT | UPDATE | DELETE.

(** The [invoice_id] of a trigger row variable; a null row gives NULL. *)
Definition row_invoice_id (r : option invoice_item) : option uuid :=
  match r with Some it => item_invoice_id it | None => None end.

Definition coalesce_id (a b : option uuid) : option uuid :=
  match a with Some _ => a | None => b end.

(** [update_invoice_totals()]: row-level AFTER trigger on [invoice_items]. *)
Definition update_invoice_totals
    (TG_OP : tg_op) (NEW OLD : option invoice_item) (d : db) : db :=
  let d1 :=
    match TG_OP with
    | INSERT | UPDATE =>
        update_invoices_where_id (row_invoice_id NEW)
          (set_subtotal
             (COALESCE (SUM (active_amounts (row_invoice_id NEW) (invoice_items d))) 0))
          d
    | DELETE =>
        update_invoices_where_id (row_invoice_id OLD)
          (set_subtotal
             (COALESCE (SUM (active_amounts (row_invoice_id OLD) (invoice_items d))) 0))
          d
    end in
  update_invoices_where_id
    (coalesce_id (row_invoice_id NEW) (row_invoice_id OLD))
    set_total_from_parts d1.

(** A statement changes its rows first; the row triggers it queued then run
    one after the other on the changed table. *)
Fixpoint fire_totals (TG_OP : tg_op)
    (rows : list (option invoice_item * option invoice_item)) (d : db) : db :=
  match rows with
  | [] => d
  | (NEW, OLD) :: r => fire_totals TG_OP r (update_invoice_totals TG_OP NEW OLD d)
  end.

(* ================================================================== *)
(** ** Statements on [invoice_items] *)

Definition invoice_exists (k : uuid) (d : db) : bool :=
  existsb (fun inv => Nat.eqb (inv_id inv) k) (invoices d).

Definition has_item_id (k : uuid) (it : invoice_item) : bool :=
  Nat.eqb (item_id it) k.

(** What the table demands of a new row: CHECK (amount >= 0), the primary
    key, and the foreign key to [invoices] (a NULL reference is allowed). *)
Definition item_row_ok (d : db) (it : invoice_item) : bool :=
  Qle_bool 0 (amount it)
  && negb (existsb (has_item_id (item_id it)) (invoice_items d))
  && match item_invoice_id it with
     | Some k => invoice_exists k d
     | None => true
     end.

Fixpoint add_rows (rows : list invoice_item) (d : db) : option db :=
  match rows with
  | [] => Some d
  | it :: r =>
      if item_row_ok d it
      then add_rows r (with_items (fun t => t ++ [it]) d)
      else None
  end.

(** [INSERT INTO invoice_items VALUES rows]: all rows or none. *)
Definition insert_invoice_items (rows : list invoice_item) (d : db) : option db :=
  match add_rows rows d with
  | Some d1 => Some (fire_totals INSERT (map (fun it => (Some it, None)) rows) d1)
  | None => None
  end.

Definition set_item_status (s : item_status) (it : invoice_item) : invoice_item :=
  mk_item (item_id it) (item_invoice_id it) (type it) (description it)
          (amount it) (reference_id it) s.

(** [UPDATE invoice_items SET status = s WHERE id = k]. *)
Definition update_item_status (k : uuid) (s : item_status) (d : db) : db :=
  let hit := filter (has_item_id k) (invoice_items d) in
  let d1 :=
    with_items
      (map (fun it => if has_item_id k it then set_item_status s it else it)) d in
  fire_totals UPDATE
    (map (fun it => (Some (set_item_status s it), Some it)) hit) d1.

(** [void_invoice_item(item_id)]. *)
Definition void_invoice_item (item_id : uuid) (d : db) : db :=
  update_item_status item_id void d.

(** [DELETE FROM invoice_items WHERE id = k]. *)
Definition delete_invoice_item (k : uuid) (d : db) : db :=
  let hit := filter (has_item_id k) (invoice_items d) in
  let d1 := with_items (filter (fun it => negb (has_item_id k it))) d in
  fire_totals DELETE (map (fun it => (None, Some it)) hit) d1.

Definition of_invoice (k : uuid) (it : invoice_item) : bool :=
  sql_eq (item_invoice_id it) (Some k).


(** The item mutations a client can issue, one row at a time. *)
Inductive item_op :=
| ItemInsert (it : invoice_item)
| ItemSetStatus (k : uuid) (s : item_status)
| ItemDelete (k : uuid).

(** A rejected statement leaves the database as it was. *)
Definition step (op : item_op) (d : db) : db :=
  match op with
  | ItemInsert it => COALESCE (insert_invoice_items [it] d) d
  | ItemSetStatus k s => update_item_status k s d
  | ItemDelete k => delete_invoice_item k d
  end.


(** The [invoice_id] of every row a statement changes in [d]. *)
Definition affected (op : item_op) (d : db) : list (option uuid) :=
  match op with
  | ItemInsert it => if item_row_ok d it then [item_invoice_id it] else []
  | ItemSetStatus k _ => map item_invoice_id (filter (has_item_id k) (invoice_items d))
  | ItemDelete k => map item_invoice_id (filter (has_item_id k) (invoice_items d))
  end.


(** The derived columns of [inv] agree with the item table [items]. *)
Definition totals_ok (items : list invoice_item) (inv : invoice) : Prop :=
  subtotal inv == COALESCE (SUM (active_amounts (Some (inv_id inv)) items)) 0
  /\ total_amount inv == subtotal inv + tax_amount inv.


(* ================================================================== *)
(** ** Payments and the status trigger *)

Definition is_confirmed (p : payment) : bool :=
  match pay_status p with confirmed => true end.

(** [SELECT amount FROM payments WHERE invoice_id = k AND status = 'confirmed']. *)
Definition confirmed_amounts (k : option uuid) (ps : list payment) : list Q :=
  map pay_amount
      (filter (fun p => sql_eq (pay_invoice_id p) k && is_confirmed p) ps).

(** [SELECT total_amount INTO invoice_total FROM invoices WHERE id = k]:
    NULL when no row is found. *)
Definition select_total_amount (k : option uuid) (d : db) : option Q :=
  match filter (fun inv => sql_eq (Some (inv_id inv)) k) (invoices d) with
  | [] => None
  | inv :: _ => Some (total_amount inv)
  end.

Definition Qlt_bool (a b : Q) : bool := negb (Qle_bool b a).

(** [a >= b] as an IF condition: NULL counts as false. *)
Definition sql_ge (a : Q) (b : option Q) : bool :=
  match b with Some y => Qle_bool y a | None => false end.

(** [update_invoice_status()]: row-level AFTER trigger on [payments]. *)
Definition update_invoice_status (NEW : payment) (d : db) : db :=
  match pay_invoice_id NEW with
  | Some k =>
      let invoice_total := select_total_amount (Some k) d in
      let total_paid :=
        COALESCE (SUM (confirmed_amounts (Some k) (payments d))) 0 in
      if sql_ge total_paid invoice_total then
        update_invoices_where_id (Some k) (set_status paid) d
      else if Qlt_bool 0 total_paid then
        update_invoices_where_id (Some k) (set_status partially_paid) d
      else d
  | None => d
  end.

(** What [payments] demands of a new row: CHECK (amount > 0), the primary
    key, and the foreign key to [invoices]. *)
Definition payment_row_ok (d : db) (p : payment) : bool :=
  Qlt_bool 0 (pay_amount p)
  && negb (existsb (fun x => Nat.eqb (pay_id x) (pay_id p)) (payments d))
  && match pay_invoice_id p with
     | Some k => invoice_exists k d
     | None => true
     end.

(** [INSERT INTO payments VALUES (p)], then the trigger; [None] is the
    statement raising an error. *)
Definition insert_payment (p : payment) (d : db) : option db :=
  if payment_row_ok d p
  then Some (update_invoice_status p (with_payments (fun t => t ++ [p]) d))
  else None.


Definition total_paid_of (k : uuid) (d : db) : Q :=
  COALESCE (SUM (confirmed_amounts (Some k) (payments d))) 0.

(** The status every row of invoice [k] carries, if they agree on [s]. *)
Definition status_is (k : uuid) (s : invoice_status) (d : db) : Prop :=
  forall inv, In inv (invoices d) -> inv_id inv = k -> inv_status inv = s.

(* ================================================================== *)
(** ** Invoice numbers *)

Open Scope string_scope.

(** The first [n] characters of [fill] repeated as often as needed. *)
Fixpoint cycle_fill (n : nat) (fill cur : string) : string :=
  match n with
  | O => EmptyString
  | S m =>
      match cur with
      | String c rest => String c (cycle_fill m fill rest)
      | EmptyString =>
          match fill with
          | String c rest => String c (cycle_fill m fill rest)
          | EmptyString => EmptyString
          end
      end
  end.

(** PostgreSQL [lpad(s, len, fill)]: pads on the left up to [len]
    characters; a longer [s] is cut to its first [len] characters. *)
Definition lpad (s : string) (len : nat) (fill : string) : string :=
  if Nat.leb len (String.length s)
  then substring 0 len s
  else cycle_fill (len - String.length s) fill fill ++ s.

(** [n::text] for an integer. *)
Definition int_text (n : Z) : string :=
  DecimalString.NilZero.string_of_int (Z.to_int n).

Definition integer_max : Z := 2147483647.

(** [nextval('invoice_number_seq')]: the sequence moves on whether or not
    the caller later fails. *)
Definition nextval (d : db) : Z * db :=
  let v := (invoice_number_seq d + 1)%Z in (v, with_seq v d).

(** [generate_invoice_number()]; [today] is [to_char(now(), 'YYYYMMDD')].
    [None] is the error raised when the value does not fit [next_val integer]. *)
Definition generate_invoice_number (today : string) (d : db) : option string * db :=
  let '(next_val, d1) := nextval d in
  if (next_val <=? integer_max)%Z
  then (Some ("INV-" ++ today ++ "-" ++ lpad (int_text next_val) 4 "0"), d1)
  else (None, d1).

(** [set_invoice_number()]: BEFORE INSERT trigger on [invoices]. *)
Definition set_invoice_number (today : string) (NEW_invoice_number : option string)
    (d : db) : option string * db :=
  match NEW_invoice_number with
  | None => generate_invoice_number today d
  | Some n => (Some n, d)
  end.

Close Scope string_scope.

(** What [invoices] demands of a new row: the three CHECKs, the primary key
    and UNIQUE (invoice_number). *)
Definition invoice_row_ok (d : db) (inv : invoice) : bool :=
  Qle_bool 0 (subtotal inv) && Qle_bool 0 (tax_amount inv)
  && Qle_bool 0 (total_amount inv)
  && negb (invoice_exists (inv_id inv) d)
  && negb (existsb (fun x => String.eqb (invoice_number x) (invoice_number inv))
                   (invoices d)).

(** [INSERT INTO invoices ... RETURNING *]; [number] is the invoice number
    the caller sent, if any.  The second component is the stored row, or
    [None] when the statement raised an error; the sequence keeps the value
    it handed out. *)
Definition insert_invoice (today : string) (id : uuid) (number : option string)
    (sub tx tot : Q) (st : invoice_status) (d : db) : db * option invoice :=
  let '(num, d1) := set_invoice_number today number d in
  match num with
  | None => (d1, None)
  | Some n =>
      let row := mk_invoice id n sub tx tot st in
      if invoice_row_ok d1 row
      then (with_invoices (fun t => t ++ [row]) d1, Some row)
      else (d1, None)
  end.

(** [UPDATE t SET status = 'invoiced' WHERE id IN ids] on a source table. *)
Definition mark_invoiced (ids : list uuid) (t : list source) : list source :=
  map (fun r => if existsb (Nat.eqb (src_id r)) ids
                then mk_source (src_id r) (src_amount r) invoiced
                else r) t.

(* ================================================================== *)
(** ** The invoice form (CreateInvoiceForm.tsx) *)

Module CreateInvoiceForm.

(** [interface InvoiceItem]. *)
Record InvoiceItem := mk_InvoiceItem {
  type : item_type;
  description : string;
  amount : Q;
  reference_id : option uuid
}.

(** [interface Tax]. *)
Record Tax := mk_Tax {
  id : uuid;
  name : string;
  percentage : Q
}.

(** The component state [handleSubmit] reads.  An empty string in
    [selectedPropertyId], [selectedUnitId] or [selectedTaxId] is [None]. *)
Record state := mk_state {
  selectedPropertyId : option uuid;
  selectedUnitId : option uuid;
  selectedTenant : option uuid;
  invoiceItems : list InvoiceItem;
  taxes : list Tax;
  selectedTaxId : option uuid;
  applyTax : bool
}.

Record totals := mk_totals {
  subtotal : Q;
  taxAmount : Q;
  total : Q
}.

Definition calculateTotals (s : state) : totals :=
  let subtotal := fold_left (fun sum item => sum + amount item) (invoiceItems s) 0 in
  match applyTax s, selectedTaxId s with
  | true, Some taxId =>
      match find (fun tax => Nat.eqb (id tax) taxId) (taxes s) with
      | None => mk_totals subtotal 0 subtotal
      | Some selectedTax =>
          let taxAmount := (subtotal * percentage selectedTax) / 100 in
          mk_totals subtotal taxAmount (subtotal + taxAmount)
      end
  | _, _ => mk_totals subtotal 0 subtotal
  end.

(** What the form does not control: the signed-in user, the clock and the
    keys the database draws, and whether each of the four requests is
    turned down before it reaches its table (transport or policy error). *)
Record world := mk_world {
  user : option uuid;
  today : string;
  new_invoice_id : uuid;
  new_item_id : nat -> uuid;
  invoices_request_fails : bool;
  items_request_fails : bool;
  utilities_request_fails : bool;
  deposits_request_fails : bool
}.

Inductive outcome :=
| Created (inv : invoice)   (* onSuccess(); onClose() *)
| Rejected                  (* validation alert, early return *)
| Failed.                   (* the catch block *)

(** The rows sent to [invoice_items]; the database draws their keys. *)
Fixpoint invoiceItemsData (w : world) (invoice_id : uuid) (n : nat)
    (items : list InvoiceItem) : list invoice_item :=
  match items with
  | [] => []
  | item :: r =>
      mk_item (new_item_id w n) (Some invoice_id) (type item)
              (description item) (amount item) (reference_id item) active
      :: invoiceItemsData w invoice_id (S n) r
  end.

Definition is_type (t : item_type) (item : InvoiceItem) : bool :=
  match t, type item with
  | utility, utility | deposit, deposit => true
  | _, _ => false
  end.

(** [invoiceItems.filter(item => item.type === t && item.reference_id)
                 .map(item => item.reference_id)]. *)
Fixpoint reference_ids (t : item_type) (items : list InvoiceItem) : list uuid :=
  match items with
  | [] => []
  | item :: r =>
      match reference_id item with
      | Some ref => if is_type t item then ref :: reference_ids t r
                    else reference_ids t r
      | None => reference_ids t r
      end
  end.

(** The two status updates; their results are not inspected. *)
Definition flip_sources (w : world) (s : state) (d : db) : db :=
  let utilityIds := reference_ids utility (invoiceItems s) in
  let depositIds := reference_ids deposit (invoiceItems s) in
  let d1 :=
    match utilityIds with
    | [] => d
    | _ => if utilities_request_fails w then d
           else with_utilities (mark_invoiced utilityIds) d
    end in
  match depositIds with
  | [] => d1
  | _ => if deposits_request_fails w then d1
         else with_deposits (mark_invoiced depositIds) d1
  end.

Definition handleSubmit (w : world) (s : state) (d : db) : db * outcome :=
  match user w with
  | None => (d, Failed)
  | Some _ =>
      match selectedPropertyId s, selectedUnitId s, selectedTenant s with
      | Some _, Some _, Some _ =>
          match invoiceItems s with
          | [] => (d, Rejected)
          | _ =>
              let t := calculateTotals s in
              if invoices_request_fails w then (d, Failed) else
              match insert_invoice (today w) (new_invoice_id w) None
                      (subtotal t) (taxAmount t) (total t) draft d with
              | (d1, None) => (d1, Failed)
              | (d1, Some inv) =>
                  if items_request_fails w then (d1, Failed) else
                  match insert_invoice_items
                          (invoiceItemsData w (inv_id inv) 0 (invoiceItems s)) d1 with
                  | None => (d1, Failed)
                  | Some d2 => (flip_sources w s d2, Created inv)
                  end
              end
          end
      | _, _, _ => (d, Rejected)
      end
  end.

End CreateInvoiceForm.

(* ================================================================== *)
(** ** Rounding as the specification words it *)




(* ================================================================== *)
(** ** Sample data *)

Module Sample.
Import CreateInvoiceForm.

Definition empty_db : db := mk_db [] [] [] [] [] 0.

(** One water reading and one security deposit wait to be invoiced. *)
Definition sources_db : db :=
  mk_db [] [] [] [mk_source 70 150 saved] [mk_source 80 500 saved] 0.

Definition office : world :=
  mk_world (Some 9%nat) "20250223" 100%nat (fun n => (200 + n)%nat)
           false false false false.

(** The same office on a day the item request is turned down. *)
Definition office_items_down : world :=
  mk_world (Some 9%nat) "20250223" 100%nat (fun n => (200 + n)%nat)
           false true false false.

(** Rent 1000 and water 150 with a 16 % tax. *)
Definition rent_and_water : state :=
  mk_state (Some 1%nat) (Some 2%nat) (Some 3%nat)
           [ mk_InvoiceItem rent "Monthly Rent" 1000 None;
             mk_InvoiceItem utility "Water - 2/2025" 150 (Some 70%nat) ]
           [ mk_Tax 5%nat "VAT" 16 ] (Some 5%nat) true.


(** Invoice 1: one active item of 100, tax 16, total 116. *)
Definition one_item_db : db :=
  mk_db [ mk_invoice 1%nat "INV-20250223-0001" 100 16 116 sent ]
        [ mk_item 10%nat (Some 1%nat) rent "Monthly Rent" 100 None active ]
        [] [] [] 1.

(** Invoice 1: two active items, 1000 and 150, tax 184, total 1334. *)
Definition two_items_db : db :=
  mk_db [ mk_invoice 1%nat "INV-20250223-0001" 1150 184 1334 sent ]
        [ mk_item 10%nat (Some 1%nat) rent "Monthly Rent" 1000 None active;
          mk_item 11%nat (Some 1%nat) utility "Water - 2/2025" 150 (Some 70%nat) active ]
        [] [] [] 1.

(** Invoice 1 of total 1000, no payment yet. *)
Definition unpaid_db : db :=
  mk_db [ mk_invoice 1%nat "INV-20250223-0001" 1000 0 1000 sent ]
        [ mk_item 10%nat (Some 1%nat) rent "Monthly Rent" 1000 None active ]
        [] [] [] 1.

Definition pay (key : uuid) (amt : Q) : payment :=
  mk_payment key (Some 1%nat) amt confirmed.

(** The same invoice once 600 have been paid. *)
Definition part_paid_db : db :=
  mk_db [ mk_invoice 1%nat "INV-20250223-0001" 1000 0 1000 partially_paid ]
        [ mk_item 10%nat (Some 1%nat) rent "Monthly Rent" 1000 None active ]
        [ pay 1%nat 600 ] [] [] 1.



End Sample.

(* ================================================================== *)
(** ** Auxiliary definitions for the proofs *)

(** The two UPDATEs of the totals trigger when both address invoice [k]. *)
Definition recompute (k : option uuid) (d : db) : db :=
  update_invoices_where_id k set_total_from_parts
    (update_invoices_where_id k
       (set_subtotal (COALESCE (SUM (active_amounts k (invoice_items d))) 0)) d).

Definition recompute_keys (keys : list (option uuid)) (d : db) : db :=
  fold_left (fun acc k => recompute k acc) keys d.

Definition recomputed (s : Q) (inv : invoice) : invoice :=
  mk_invoice (inv_id inv) (invoice_number inv) s (tax_amount inv)
             (s + tax_amount inv) (inv_status inv).

(** Sum of a list of amounts, zero for the empty list. *)
Definition total_of (xs : list Q) : Q := fold_right Qplus 0 xs.

(** Two rows agree on everything the totals trigger leaves alone. *)
Definition same_identity (a b : invoice) : Prop :=
  inv_id a = inv_id b /\ invoice_number a = invoice_number b
  /\ tax_amount a = tax_amount b /\ inv_status a = inv_status b.

(** The CHECK constraints of [invoices] and [invoice_items]. *)
Definition checks_hold (d : db) : Prop :=
  (forall inv, In inv (invoices d) ->
     0 <= subtotal inv /\ 0 <= tax_amount inv /\ 0 <= total_amount inv)
  /\ (forall it, In it (invoice_items d) -> 0 <= amount it).


(** Referential integrity of [invoice_items.invoice_id]. *)
Definition fk_ok (d : db) : Prop :=
  forall it k, In it (invoice_items d) -> item_invoice_id it = Some k ->
               invoice_exists k d = true.

(** Atomic creation, in the words of the specification: a submission that
    does not succeed leaves no trace in any table. *)
Definition creation_atomic : Prop :=
  forall w s d,
    (forall inv, snd (CreateInvoiceForm.handleSubmit w s d)
                 <> CreateInvoiceForm.Created inv) ->
    invoices (fst (CreateInvoiceForm.handleSubmit w s d)) = invoices d
    /\ invoice_items (fst (CreateInvoiceForm.handleSubmit w s d)) = invoice_items d
    /\ utilities (fst (CreateInvoiceForm.handleSubmit w s d)) = utilities d
    /\ deposits (fst (CreateInvoiceForm.handleSubmit w s d)) = deposits d.

(* ================================================================== *)
(** ** Deleting and sending an invoice *)

Definition detach_payment (k : uuid) (p : payment) : payment :=
  if sql_eq (pay_invoice_id p) (Some k)
  then mk_payment (pay_id p) None (pay_amount p) (pay_status p)
  else p.

(** [DELETE FROM invoices WHERE id = k].  The items of the invoice go with
    it ([invoice_items.invoice_id ... ON DELETE CASCADE]), each firing the
    totals trigger, and the payments against it lose their reference
    ([payments.invoice_id ... ON DELETE SET NULL]; that UPDATE names neither
    [amount] nor [status], so the status trigger stays silent). *)
Definition delete_invoice (k : uuid) (d : db) : db :=
  if invoice_exists k d then
    let d1 := with_invoices (filter (fun inv => negb (Nat.eqb (inv_id inv) k))) d in
    let hit := filter (of_invoice k) (invoice_items d1) in
    let d2 := with_items (filter (fun it => negb (of_invoice k it))) d1 in
    let d3 := fire_totals DELETE (map (fun it => (None, Some it)) hit) d2 in
    with_payments (map (detach_payment k)) d3
  else d.

Module InvoiceList.

(** [handleDelete(id)]; [confirmed] is the answer to the confirm dialog. *)
Definition handleDelete (confirmed request_fails : bool) (id : uuid) (d : db) : db :=
  if negb confirmed then d
  else if request_fails then d
  else delete_invoice id d.

End InvoiceList.

Module ViewInvoiceModal.

(** The "Send Invoice" button is rendered for a draft only. *)
Definition send_offered (invoiceDetails : invoice) : bool :=
  match inv_status invoiceDetails with draft => true | _ => false end.

(** [handleSendInvoice()]: [UPDATE invoices SET status = 'sent' WHERE id = id]. *)
Definition handleSendInvoice (invoiceDetails : option invoice) (request_fails : bool)
    (id : uuid) (d : db) : db :=
  match invoiceDetails with
  | None => d
  | Some _ =>
      if request_fails then d
      else update_invoices_where_id (Some id) (set_status sent) d
  end.

End ViewInvoiceModal.

(* ================================================================== *)
(** ** The payment form (MakePaymentForm) *)

Module MakePaymentForm.

(** [handleInvoiceSelection(invoiceId)], as the updater of [selectedInvoices]. *)
Definition handleInvoiceSelection (invoiceId : uuid) (prev : list uuid) : list uuid :=
  let isSelected := existsb (Nat.eqb invoiceId) prev in
  if isSelected
  then filter (fun id => negb (Nat.eqb id invoiceId)) prev
  else prev ++ [invoiceId].

(** [.in('status', ['sent', 'partially_paid', 'overdue'])]. *)
Definition payable (inv : invoice) : bool :=
  match inv_status inv with
  | sent | partially_paid | overdue => true
  | draft | paid | cancelled => false
  end.

(** [fetchInvoices()], as the new value of the [invoices] state.
    [tenant_id_of] reads the column [invoices.tenant_id], which no statement
    of the model writes, and [by_due_date] is the ORDER BY on [due_date]. *)
Definition fetchInvoices (tenant_id_of : uuid -> uuid)
    (by_due_date : list invoice -> list invoice)
    (selectedUnitId selectedTenant : option uuid) (request_fails : bool)
    (prev : list invoice) (d : db) : list invoice :=
  match selectedUnitId, selectedTenant with
  | Some _, Some tenant =>
      if request_fails then prev
      else by_due_date
             (filter (fun inv => Nat.eqb (tenant_id_of (inv_id inv)) tenant && payable inv)
                     (invoices d))
  | _, _ => prev
  end.

Inductive payment_type := full | partial.

(** The component state [handleSubmit] reads; [amount] is
    [parseFloat(formData.amount)], with [None] for NaN. *)
Record state := mk_state {
  invoices : list invoice;
  selectedInvoices : list uuid;
  amount : option Q;
  paymentType : payment_type;
  file : bool
}.

(** What the form does not control: the signed-in user, the receipt upload,
    the keys the database draws and whether the n-th insert request is turned
    down before it reaches the table. *)
Record world := mk_world {
  user : option uuid;
  upload_fails : bool;
  new_payment_id : nat -> uuid;
  payment_request_fails : nat -> bool
}.

Inductive outcome :=
| Done      (* onSuccess(); onClose() *)
| Failed.   (* the catch block *)

Definition find_invoice (s : state) (invoiceId : uuid) : option invoice :=
  find (fun inv => Nat.eqb (inv_id inv) invoiceId) (invoices s).

(** [selectedInvoices.reduce((sum, invoiceId) => sum + (invoice?.total_amount || 0), 0)]. *)
Definition totalInvoiceAmount (s : state) : Q :=
  fold_left
    (fun sum invoiceId =>
       sum + match find_invoice s invoiceId with
             | Some invoice => total_amount invoice
             | None => 0
             end)
    (selectedInvoices s) 0.

(** The amount recorded against one invoice; [None] is NaN. *)
Definition payment_amount_for (s : state) (invoice : invoice) : option Q :=
  match paymentType s with
  | full => Some (total_amount invoice)
  | partial =>
      match amount s with
      | Some paymentAmount =>
          Some (paymentAmount / inject_Z (Z.of_nat (List.length (selectedInvoices s))))
      | None => None
      end
  end.

(** The loop over [selectedInvoices]; [n] counts the invoices gone through.
    A NaN amount is sent as null and refused by NOT NULL. *)
Fixpoint pay_each (w : world) (s : state) (n : nat) (ids : list uuid) (d : db)
    : db * outcome :=
  match ids with
  | [] => (d, Done)
  | invoiceId :: rest =>
      match find_invoice s invoiceId with
      | None => pay_each w s (S n) rest d
      | Some invoice =>
          match payment_amount_for s invoice with
          | None => (d, Failed)
          | Some a =>
              if payment_request_fails w n then (d, Failed)
              else
                match insert_payment
                        (mk_payment (new_payment_id w n) (Some invoiceId) a confirmed) d with
                | None => (d, Failed)
                | Some d1 => pay_each w s (S n) rest d1
                end
          end
      end
  end.

(** [paymentAmount < totalInvoiceAmount]: false for NaN. *)
Definition below (paymentAmount : option Q) (bound : Q) : bool :=
  match paymentAmount with
  | Some a => Qlt_bool a bound
  | None => false
  end.

Definition is_full (t : payment_type) : bool :=
  match t with full => true | partial => false end.

Definition handleSubmit (w : world) (s : state) (d : db) : db * outcome :=
  match user w with
  | None => (d, Failed)
  | Some _ =>
      if file s && upload_fails w then (d, Failed)
      else if is_full (paymentType s) && below (amount s) (totalInvoiceAmount s)
      then (d, Failed)
      else pay_each w s 0 (selectedInvoices s) d
  end.

End MakePaymentForm.

(* ================================================================== *)
(** ** Composing the invoice items (CreateInvoiceForm.tsx) *)

(** The columns of [utilities] and of [deposits] that the form reads and no
    statement of the model writes, by row key. *)
Record utility_columns := mk_utility_columns {
  utility_unit_id : uuid -> uuid;
  utility_month : uuid -> Z;
  utility_year : uuid -> Z;
  utility_item : uuid -> string
}.

Record deposit_columns := mk_deposit_columns {
  deposit_unit_id : uuid -> uuid;
  deposit_type : uuid -> string
}.

Definition to_upper (c : ascii) : ascii :=
  let n := nat_of_ascii c in
  if Nat.leb 97 n && Nat.leb n 122 then ascii_of_nat (n - 32) else c.

(** [s.charAt(0).toUpperCase() + s.slice(1)], on ASCII text. *)
Definition capitalize (s : string) : string :=
  match s with
  | EmptyString => EmptyString
  | String c rest => String (to_upper c) rest
  end.

Definition is_saved (r : source) : bool :=
  match src_status r with saved => true | _ => false end.

Definition set_invoiceItems (items : list CreateInvoiceForm.InvoiceItem)
    (s : CreateInvoiceForm.state) : CreateInvoiceForm.state :=
  CreateInvoiceForm.mk_state
    (CreateInvoiceForm.selectedPropertyId s) (CreateInvoiceForm.selectedUnitId s)
    (CreateInvoiceForm.selectedTenant s) items (CreateInvoiceForm.taxes s)
    (CreateInvoiceForm.selectedTaxId s) (CreateInvoiceForm.applyTax s).


(** The rows [fetchUtilities] asks for: the saved utilities of the unit and
    period. *)
Definition saved_utilities (cols : utility_columns) (unit : uuid)
    (selectedMonth selectedYear : Z) (d : db) : list source :=
  filter (fun r => Nat.eqb (utility_unit_id cols (src_id r)) unit
                   && Z.eqb (utility_month cols (src_id r)) selectedMonth
                   && Z.eqb (utility_year cols (src_id r)) selectedYear
                   && is_saved r)
         (utilities d).

Definition utility_line (cols : utility_columns) (r : source)
    : CreateInvoiceForm.InvoiceItem :=
  CreateInvoiceForm.mk_InvoiceItem utility
    (capitalize (utility_item cols (src_id r)) ++ " - "
     ++ int_text (utility_month cols (src_id r)) ++ "/"
     ++ int_text (utility_year cols (src_id r)))%string
    (src_amount r) (Some (src_id r)).

(** [fetchUtilities()]. *)
Definition fetchUtilities (cols : utility_columns) (selectedMonth selectedYear : Z)
    (request_fails : bool) (s : CreateInvoiceForm.state) (d : db)
    : CreateInvoiceForm.state :=
  match CreateInvoiceForm.selectedUnitId s with
  | None => s
  | Some unit =>
      if request_fails then s
      else
        match saved_utilities cols unit selectedMonth selectedYear d with
        | [] => s
        | data =>
            let utilityItems := map (utility_line cols) data in
            let nonUtilityItems :=
              filter (fun item => negb (CreateInvoiceForm.is_type utility item))
                     (CreateInvoiceForm.invoiceItems s) in
            set_invoiceItems (nonUtilityItems ++ utilityItems) s
        end
  end.

Definition saved_deposits (cols : deposit_columns) (unit : uuid) (d : db)
    : list source :=
  filter (fun r => Nat.eqb (deposit_unit_id cols (src_id r)) unit && is_saved r)
         (deposits d).

Definition deposit_line (cols : deposit_columns) (r : source)
    : CreateInvoiceForm.InvoiceItem :=
  CreateInvoiceForm.mk_InvoiceItem deposit
    (capitalize (deposit_type cols (src_id r)) ++ " Deposit")%string
    (src_amount r) (Some (src_id r)).

(** [fetchDeposits()]. *)
Definition fetchDeposits (cols : deposit_columns) (request_fails : bool)
    (s : CreateInvoiceForm.state) (d : db) : CreateInvoiceForm.state :=
  match CreateInvoiceForm.selectedUnitId s with
  | None => s
  | Some unit =>
      if request_fails then s
      else
        match saved_deposits cols unit d with
        | [] => s
        | data =>
            let depositItems := map (deposit_line cols) data in
            let nonDepositItems :=
              filter (fun item => negb (CreateInvoiceForm.is_type deposit item))
                     (CreateInvoiceForm.invoiceItems s) in
            set_invoiceItems (nonDepositItems ++ depositItems) s
        end
  end.

(* ================================================================== *)
(** ** Auxiliary definitions for the further properties *)

(** The constraints of the invoice tables: the CHECKs, the primary key of
    [invoice_items] and its foreign key. *)
Definition db_consistent (d : db) : Prop :=
  checks_hold d /\ NoDup (map item_id (invoice_items d)) /\ fk_ok d.

(** The invoice table after the totals trigger ran for [keys]. *)
Definition recomputed_rows (keys : list (option uuid)) (d : db) : list invoice :=
  map (fun inv =>
         if existsb (sql_eq (Some (inv_id inv))) keys
         then recomputed
                (COALESCE
                   (SUM (active_amounts (Some (inv_id inv)) (invoice_items d))) 0) inv
         else inv)
      (invoices d).

(** The counter an ordinal field stands for. *)
Definition ordinal_value (s : string) : option Z :=
  option_map Z.of_uint (NilZero.uint_of_string s).

Definition ordinal_of (n : Z) : string := lpad (int_text n) 4 "0".

(** What the CHECK, the primary key and the foreign key of [invoice_items]
    ask of a new row. *)
Definition row_acceptable (d : db) (it : invoice_item) : Prop :=
  0 <= amount it
  /\ ~ In (item_id it) (map item_id (invoice_items d))
  /\ (forall k, item_invoice_id it = Some k -> invoice_exists k d = true).

(** The ordinal field of counter [n] reads back as [n]. *)
Definition decodes (n : Z) : bool :=
  match ordinal_value (ordinal_of n) with
  | Some v => Z.eqb v n
  | None => false
  end.

Definition hundred : list Z := map Z.of_nat (seq 0 100).

(** Every counter from 1 to 9999, written as [100 * q + r], decodes. *)
Definition ordinals_decode : bool :=
  forallb (fun q => forallb (fun r => Z.eqb (100 * q + r) 0 || decodes (100 * q + r)) hundred)
          hundred.

(** The branch the trigger takes, as a status to write or none. *)
Definition decided (NEW : payment) (d : db) : option (uuid * option invoice_status) :=
  match pay_invoice_id NEW with
  | Some k =>
      Some (k,
            if sql_ge (total_paid_of k d) (select_total_amount (Some k) d) then Some paid
            else if Qlt_bool 0 (total_paid_of k d) then Some partially_paid
            else None)
  | None => None
  end.

(** A run of payment inserts, each accepted. *)
Fixpoint insert_payments (ps : list payment) (d : db) : option db :=
  match ps with
  | [] => Some d
  | p :: rest =>
      match insert_payment p d with
      | Some d1 => insert_payments rest d1
      | None => None
      end
  end.

(** What the loop is to record for the invoices [ids]. *)
Definition due (s : MakePaymentForm.state) (ids : list uuid) : list Q :=
  flat_map
    (fun k => match MakePaymentForm.find_invoice s k with
              | Some inv =>
                  match MakePaymentForm.payment_amount_for s inv with
                  | Some a => [a]
                  | None => []
                  end
              | None => []
              end) ids.

(* ================================================================== *)
(** ** Sample data for the payment form and the draft *)

Module Scenario.

(** Invoice 1 of total 1000 and invoice 2 of total 500, both sent. *)
Definition two_invoices_db : db :=
  mk_db [ mk_invoice 1%nat "INV-20250223-0001" 1000 0 1000 sent;
          mk_invoice 2%nat "INV-20250223-0002" 500 0 500 sent ]
        [ mk_item 10%nat (Some 1%nat) rent "Monthly Rent" 1000 None active;
          mk_item 11%nat (Some 2%nat) rent "Monthly Rent" 500 None active ]
        [] [] [] 2.

(** Invoice 1 of total 1000, settled by one payment. *)
Definition paid_db : db :=
  mk_db [ mk_invoice 1%nat "INV-20250223-0001" 1000 0 1000 paid ]
        [ mk_item 10%nat (Some 1%nat) rent "Monthly Rent" 1000 None active ]
        [ mk_payment 1%nat (Some 1%nat) 1000 confirmed ] [] [] 1.


(** The same desk on a day the second insert request is turned down. *)
Definition desk_second_down : MakePaymentForm.world :=
  MakePaymentForm.mk_world (Some 9%nat) false (fun n => (300 + n)%nat)
                           (fun n => Nat.eqb n 1).

(** Both invoices selected, paid in full with 1500 typed. *)
Definition pay_both : MakePaymentForm.state :=
  MakePaymentForm.mk_state (invoices two_invoices_db) [1%nat; 2%nat] (Some 1500)
                           MakePaymentForm.full false.

(** Every utility is a water reading of unit 2 for 2/2025; every deposit is
    a security deposit of unit 2. *)
Definition meter : utility_columns :=
  mk_utility_columns (fun _ => 2%nat) (fun _ => 2%Z) (fun _ => 2025%Z) (fun _ => "water"%string).

Definition held : deposit_columns :=
  mk_deposit_columns (fun _ => 2%nat) (fun _ => "security"%string).

(** A draft for unit 2 that still shows last month's water. *)
Definition stale_draft : CreateInvoiceForm.state :=
  CreateInvoiceForm.mk_state (Some 1%nat) (Some 2%nat) (Some 3%nat)
    [ CreateInvoiceForm.mk_InvoiceItem rent "Monthly Rent" 1000 None;
      CreateInvoiceForm.mk_InvoiceItem utility "Water - 1/2025" 90 (Some 60%nat) ]
    [] None false.

Definition late_fee : invoice_item :=
  mk_item 12%nat (Some 1%nat) other "Late fee" 50 None active.

End Scenario.

(* ================================================================== *)
(** * Theorems *)

(** ** The totals trigger as a recomputation *)

Lemma trigger_insert it d :
  update_invoice_totals INSERT (Some it) None d = recompute (item_invoice_id it) d.
Proof.
  unfold update_invoice_totals, recompute; simpl.
  destruct (item_invoice_id it); reflexivity.
Qed.

Lemma trigger_update new old d :
  item_invoice_id new = item_invoice_id old ->
  update_invoice_totals UPDATE (Some new) (Some old) d
  = recompute (item_invoice_id old) d.
Proof.
  intros E. unfold update_invoice_totals, recompute; simpl. rewrite E.
  destruct (item_invoice_id old); reflexivity.
Qed.

Lemma trigger_delete old d :
  update_invoice_totals DELETE None (Some old) d = recompute (item_invoice_id old) d.
Proof. reflexivity. Qed.

Lemma fire_totals_insert rows d :
  fire_totals INSERT (map (fun it => (Some it, None)) rows) d
  = recompute_keys (map item_invoice_id rows) d.
Proof.
  revert d. induction rows as [|it r IH]; intros d; simpl; [reflexivity|].
  rewrite trigger_insert. apply IH.
Qed.

Lemma fire_totals_update s rows d :
  fire_totals UPDATE (map (fun it => (Some (set_item_status s it), Some it)) rows) d
  = recompute_keys (map item_invoice_id rows) d.
Proof.
  revert d. induction rows as [|it r IH]; intros d; simpl; [reflexivity|].
  rewrite trigger_update by reflexivity. apply IH.
Qed.

Lemma fire_totals_delete rows d :
  fire_totals DELETE (map (fun it => (None, Some it)) rows) d
  = recompute_keys (map item_invoice_id rows) d.
Proof.
  revert d. induction rows as [|it r IH]; intros d; simpl; [reflexivity|].
  rewrite trigger_delete. apply IH.
Qed.

Lemma recompute_items k d : invoice_items (recompute k d) = invoice_items d.
Proof. reflexivity. Qed.

Lemma recompute_invoices k d :
  invoices (recompute k d)
  = map (fun inv =>
           if sql_eq (Some (inv_id inv)) k
           then recomputed (COALESCE (SUM (active_amounts k (invoice_items d))) 0) inv
           else inv)
        (invoices d).
Proof.
  unfold recompute, update_invoices_where_id, with_invoices; simpl.
  rewrite map_map. apply map_ext. intros inv.
  destruct k as [k|]; [|reflexivity]. simpl.
  destruct (inv_id inv =? k)%nat eqn:E; simpl; rewrite ?E; reflexivity.
Qed.

Lemma recompute_keys_items keys d :
  invoice_items (recompute_keys keys d) = invoice_items d.
Proof.
  revert d. induction keys as [|k r IH]; intros d; simpl; [reflexivity|].
  unfold recompute_keys in IH. rewrite IH. apply recompute_items.
Qed.


Lemma sql_eq_true a b : sql_eq a b = true -> a = b.
Proof.
  destruct a, b; simpl; try discriminate.
  intros H. apply Nat.eqb_eq in H. congruence.
Qed.

Lemma sql_eq_refl a : sql_eq (Some a) (Some a) = true.
Proof. simpl. apply Nat.eqb_refl. Qed.

Lemma existsb_sql_eq i keys :
  existsb (sql_eq (Some i)) keys = true <-> In (Some i) keys.
Proof.
  rewrite existsb_exists. split.
  - intros [k [Hin E]]. apply sql_eq_true in E. congruence.
  - intros Hin. exists (Some i). split; [assumption|apply sql_eq_refl].
Qed.

(** ** The invariant across the trigger *)




(** ** Item statements leave the other invoices' items alone *)





Lemma in_some_dec (i : uuid) (keys : list (option uuid)) :
  {In (Some i) keys} + {~ In (Some i) keys}.
Proof. apply in_dec. decide equality. apply Nat.eq_dec. Qed.



Lemma add_rows_items rows d d1 :
  add_rows rows d = Some d1 ->
  invoice_items d1 = invoice_items d ++ rows
  /\ invoices d1 = invoices d /\ payments d1 = payments d
  /\ utilities d1 = utilities d /\ deposits d1 = deposits d
  /\ invoice_number_seq d1 = invoice_number_seq d.
Proof.
  revert d. induction rows as [|it r IH]; intros d H; simpl in H.
  - inversion H; subst. rewrite app_nil_r. repeat split.
  - destruct (item_row_ok d it); [|discriminate].
    apply IH in H. simpl in H. rewrite <- app_assoc in H. exact H.
Qed.



(** ** Sums *)

Lemma SUM_total_of xs : COALESCE (SUM xs) 0 == total_of xs.
Proof.
  induction xs as [|x r IH]; simpl; [reflexivity|].
  destruct r as [|y r']; simpl in *.
  - lra.
  - rewrite IH. reflexivity.
Qed.

Lemma SUM_nil_zero : COALESCE (SUM []) 0 = 0.
Proof. reflexivity. Qed.

Lemma total_of_app xs ys : total_of (xs ++ ys) == total_of xs + total_of ys.
Proof.
  induction xs as [|x r IH]; simpl; [lra|]. rewrite IH. lra.
Qed.


Lemma fold_left_total_of xs acc :
  fold_left Qplus xs acc == acc + total_of xs.
Proof.
  revert acc. induction xs as [|x r IH]; intros acc; simpl; [lra|].
  rewrite IH. lra.
Qed.


(** ** The status trigger *)

Lemma Qlt_bool_iff a b : Qlt_bool a b = true <-> a < b.
Proof.
  unfold Qlt_bool. rewrite negb_true_iff. split.
  - intros H. apply Qnot_le_lt. intros Hle.
    apply Qle_bool_iff in Hle. congruence.
  - intros H. destruct (Qle_bool b a) eqn:E; [|reflexivity].
    apply Qle_bool_iff in E. lra.
Qed.


Lemma status_is_after_update k s d :
  status_is k s (update_invoices_where_id (Some k) (set_status s) d).
Proof.
  intros inv Hin Hid. simpl in Hin. apply in_map_iff in Hin.
  destruct Hin as [inv0 [E Hin0]].
  destruct (inv_id inv0 =? k)%nat eqn:Ek.
  - subst inv. reflexivity.
  - subst inv. rewrite Hid, Nat.eqb_refl in Ek. discriminate.
Qed.



Lemma update_invoice_status_payments NEW d :
  payments (update_invoice_status NEW d) = payments d.
Proof.
  unfold update_invoice_status. destruct (pay_invoice_id NEW); [|reflexivity].
  cbv zeta. destruct (sql_ge _ _); [reflexivity|].
  destruct (Qlt_bool _ _); reflexivity.
Qed.






(** ** What the totals trigger never touches *)

Lemma recompute_keys_identity keys d row' :
  In row' (invoices (recompute_keys keys d)) ->
  exists row, In row (invoices d) /\ same_identity row' row.
Proof.
  revert d row'. induction keys as [|k r IH]; intros d row' Hin; simpl in Hin.
  - exists row'. split; [exact Hin|]. repeat split.
  - apply IH in Hin. destruct Hin as [row1 [Hin1 Hs1]].
    rewrite recompute_invoices in Hin1. apply in_map_iff in Hin1.
    destruct Hin1 as [row [E Hin0]]. exists row. split; [exact Hin0|].
    destruct Hs1 as [A [B [C D]]].
    destruct (sql_eq (Some (inv_id row)) k); subst row1; simpl in *;
      repeat split; assumption.
Qed.

Lemma recompute_keys_frame keys d :
  payments (recompute_keys keys d) = payments d
  /\ utilities (recompute_keys keys d) = utilities d
  /\ deposits (recompute_keys keys d) = deposits d
  /\ invoice_number_seq (recompute_keys keys d) = invoice_number_seq d.
Proof.
  revert d. induction keys as [|k r IH]; intros d; simpl; [repeat split|].
  destruct (IH (recompute k d)) as [A [B [C D]]].
  unfold recompute_keys in *. rewrite A, B, C, D. repeat split.
Qed.

Lemma recompute_keys_ids keys d :
  map inv_id (invoices (recompute_keys keys d)) = map inv_id (invoices d).
Proof.
  revert d. induction keys as [|k r IH]; intros d; simpl; [reflexivity|].
  unfold recompute_keys in IH. rewrite IH, recompute_invoices, map_map.
  apply map_ext. intros inv. destruct (sql_eq _ _); reflexivity.
Qed.


Lemma recompute_keys_status keys d :
  map inv_status (invoices (recompute_keys keys d)) = map inv_status (invoices d).
Proof.
  revert d. induction keys as [|k r IH]; intros d; simpl; [reflexivity|].
  unfold recompute_keys in IH. rewrite IH, recompute_invoices, map_map.
  apply map_ext. intros inv. destruct (sql_eq _ _); reflexivity.
Qed.



(** ** Voiding *)






(** ** The values the trigger writes *)

Lemma recompute_keys_writes i keys d :
  In (Some i) keys ->
  forall inv, In inv (invoices (recompute_keys keys d)) -> inv_id inv = i ->
    subtotal inv = COALESCE (SUM (active_amounts (Some i) (invoice_items d))) 0
    /\ total_amount inv = (subtotal inv + tax_amount inv)%Q.
Proof.
  set (written := fun (items : list invoice_item) (l : list invoice) =>
         forall inv, In inv l -> inv_id inv = i ->
           subtotal inv = COALESCE (SUM (active_amounts (Some i) items)) 0
           /\ total_amount inv = (subtotal inv + tax_amount inv)%Q).
  assert (Keep : forall keys d,
             written (invoice_items d) (invoices d) ->
             written (invoice_items d) (invoices (recompute_keys keys d))).
  { clear keys d. induction keys as [|k r IH]; intros d H; [exact H|].
    change (recompute_keys (k :: r) d) with (recompute_keys r (recompute k d)).
    rewrite <- (recompute_items k d). apply IH. rewrite recompute_items.
    intros inv Hin Hid. rewrite recompute_invoices in Hin.
    apply in_map_iff in Hin. destruct Hin as [inv0 [E Hin0]].
    destruct (sql_eq (Some (inv_id inv0)) k) eqn:Ek.
    - apply sql_eq_true in Ek. subst inv k. simpl in Hid. subst i.
      split; reflexivity.
    - subst inv. apply H; assumption. }
  revert d. induction keys as [|k r IH]; intros d Hin; [destruct Hin|].
  change (recompute_keys (k :: r) d) with (recompute_keys r (recompute k d)).
  destruct (in_some_dec i r) as [Hr|Hr].
  - rewrite <- (recompute_items k d). apply IH. exact Hr.
  - destruct Hin as [E|Hin]; [|contradiction]. subst k.
    rewrite <- (recompute_items (Some i) d). apply (Keep r (recompute (Some i) d)).
    rewrite recompute_items. intros inv Hin Hid. rewrite recompute_invoices in Hin.
    apply in_map_iff in Hin. destruct Hin as [inv0 [E Hin0]].
    destruct (sql_eq (Some (inv_id inv0)) (Some i)) eqn:Ek.
    + subst inv. split; reflexivity.
    + subst inv. rewrite Hid, sql_eq_refl in Ek. discriminate.
Qed.

Lemma no_id_filter_nil k items :
  ~ In k (map item_id items) -> filter (has_item_id k) items = [].
Proof.
  induction items as [|it r IH]; intros H; [reflexivity|]. simpl in *.
  destruct (has_item_id k it) eqn:E.
  - unfold has_item_id in E. apply Nat.eqb_eq in E. exfalso. apply H. left. exact E.
  - apply IH. intros Hin. apply H. right. exact Hin.
Qed.



(** C7 (as the trigger has it).  Deleting the last active item of an invoice
    leaves its subtotal at the number 0, and its total_amount equal to its
    tax_amount, which the deletion does not change. *)
Theorem delete_last_active_item :
  forall (d : db) (k i : uuid) (it0 : invoice_item),
    In it0 (invoice_items d) -> item_id it0 = k ->
    item_invoice_id it0 = Some i -> item_st it0 = active ->
    (forall it, In it (invoice_items d) -> item_invoice_id it = Some i ->
                item_st it = active -> item_id it = k) ->
    forall inv', In inv' (invoices (delete_invoice_item k d)) -> inv_id inv' = i ->
      subtotal inv' = 0
      /\ total_amount inv' == tax_amount inv'
      /\ exists inv, In inv (invoices d) /\ inv_id inv = i
                     /\ tax_amount inv' = tax_amount inv.
Proof.
  intros d k i it0 Hin0 Hk Hi Ha Hlast inv' Hin' Hid'.
  unfold delete_invoice_item in Hin'. rewrite fire_totals_delete in Hin'.
  set (d1 := with_items _ d) in *.
  assert (Hkey : In (Some i)
                   (map item_invoice_id (filter (has_item_id k) (invoice_items d)))).
  { rewrite <- Hi. apply in_map. apply filter_In. split; [exact Hin0|].
    unfold has_item_id. rewrite Hk. apply Nat.eqb_refl. }
  destruct (recompute_keys_writes i _ d1 Hkey inv' Hin' Hid') as [Hs Ht].
  assert (Hnone : active_amounts (Some i) (invoice_items d1) = []).
  { unfold d1; simpl. unfold active_amounts.
    assert (Hf : forall items,
               (forall it, In it items -> item_invoice_id it = Some i ->
                           item_st it = active -> item_id it = k) ->
               filter (fun it => sql_eq (item_invoice_id it) (Some i) && is_active it)
                      (filter (fun it => negb (has_item_id k it)) items) = []).
    { induction items as [|it r IH]; intros H; [reflexivity|]. simpl.
      assert (Hr : forall it, In it r -> item_invoice_id it = Some i ->
                              item_st it = active -> item_id it = k).
      { intros x Hx. apply H. right. exact Hx. }
      destruct (has_item_id k it) eqn:Eh; simpl; [apply IH, Hr|].
      destruct (sql_eq (item_invoice_id it) (Some i)) eqn:Es; simpl; [|apply IH, Hr].
      unfold is_active. destruct (item_st it) eqn:Est; [|apply IH, Hr].
      apply sql_eq_true in Es. unfold has_item_id in Eh. apply Nat.eqb_neq in Eh.
      exfalso. apply Eh. apply H; [left; reflexivity|exact Es|exact Est]. }
    rewrite Hf by exact Hlast. reflexivity. }
  rewrite Hnone in Hs. simpl in Hs. split; [exact Hs|].
  split; [rewrite Ht, Hs; lra|].
  destruct (recompute_keys_identity _ d1 inv' Hin') as [inv [Hinv [A [B [C D]]]]].
  exists inv. split; [exact Hinv|]. split; [congruence|exact C].
Qed.

(** ** Invoice creation *)

Lemma client_sum items acc :
  fold_left (fun sum item => sum + CreateInvoiceForm.amount item) items acc
  == acc + total_of (map CreateInvoiceForm.amount items).
Proof.
  revert acc. induction items as [|it r IH]; intros acc; simpl; [lra|].
  rewrite IH. lra.
Qed.

Lemma calculateTotals_subtotal s :
  CreateInvoiceForm.subtotal (CreateInvoiceForm.calculateTotals s)
  == total_of (map CreateInvoiceForm.amount (CreateInvoiceForm.invoiceItems s)).
Proof.
  unfold CreateInvoiceForm.calculateTotals.
  destruct (CreateInvoiceForm.applyTax s), (CreateInvoiceForm.selectedTaxId s);
    try destruct (find _ _); simpl; rewrite client_sum; lra.
Qed.



Lemma generate_invoice_number_frame today d r d1 :
  generate_invoice_number today d = (r, d1) ->
  d1 = with_seq (invoice_number_seq d + 1)%Z d.
Proof.
  unfold generate_invoice_number, nextval.
  destruct (_ <=? _)%Z; intros E; inversion E; reflexivity.
Qed.

Lemma insert_invoice_stored today id sub tx tot st d d1 inv :
  insert_invoice today id None sub tx tot st d = (d1, Some inv) ->
  (exists n, inv = mk_invoice id n sub tx tot st)
  /\ invoices d1 = invoices d ++ [inv]
  /\ invoice_items d1 = invoice_items d
  /\ payments d1 = payments d
  /\ utilities d1 = utilities d /\ deposits d1 = deposits d
  /\ invoice_exists id d = false.
Proof.
  unfold insert_invoice, set_invoice_number.
  destruct (generate_invoice_number today d) as [num d0] eqn:Eg.
  apply generate_invoice_number_frame in Eg. subst d0.
  destruct num as [n|]; [|discriminate].
  destruct (invoice_row_ok _ _) eqn:Eok; [|discriminate].
  intros E. inversion E; subst; clear E.
  split; [eexists; reflexivity|]. repeat split.
  unfold invoice_row_ok in Eok. simpl in Eok.
  repeat (apply andb_true_iff in Eok; destruct Eok as [Eok ?]).
  apply negb_true_iff. assumption.
Qed.

Lemma insert_invoice_refused today id sub tx tot st d d1 :
  insert_invoice today id None sub tx tot st d = (d1, None) ->
  d1 = with_seq (invoice_number_seq d + 1)%Z d.
Proof.
  unfold insert_invoice, set_invoice_number.
  destruct (generate_invoice_number today d) as [num d0] eqn:Eg.
  apply generate_invoice_number_frame in Eg. subst d0.
  destruct num as [n|]; [|intros E; inversion E; reflexivity].
  destruct (invoice_row_ok _ _); intros E; inversion E; reflexivity.
Qed.

Lemma flip_sources_frame w s d :
  invoices (CreateInvoiceForm.flip_sources w s d) = invoices d
  /\ invoice_items (CreateInvoiceForm.flip_sources w s d) = invoice_items d
  /\ payments (CreateInvoiceForm.flip_sources w s d) = payments d.
Proof.
  unfold CreateInvoiceForm.flip_sources.
  destruct (CreateInvoiceForm.reference_ids utility _),
           (CreateInvoiceForm.reference_ids deposit _);
    destruct (CreateInvoiceForm.utilities_request_fails w),
             (CreateInvoiceForm.deposits_request_fails w); repeat split.
Qed.

(** A successful submission, step by step. *)
Lemma handleSubmit_created w s d d' inv :
  CreateInvoiceForm.handleSubmit w s d = (d', CreateInvoiceForm.Created inv) ->
  exists d1 d2,
    CreateInvoiceForm.invoiceItems s <> []
    /\ insert_invoice (CreateInvoiceForm.today w) (CreateInvoiceForm.new_invoice_id w) None
         (CreateInvoiceForm.subtotal (CreateInvoiceForm.calculateTotals s))
         (CreateInvoiceForm.taxAmount (CreateInvoiceForm.calculateTotals s))
         (CreateInvoiceForm.total (CreateInvoiceForm.calculateTotals s))
         draft d = (d1, Some inv)
    /\ insert_invoice_items
         (CreateInvoiceForm.invoiceItemsData w (inv_id inv) 0
            (CreateInvoiceForm.invoiceItems s)) d1 = Some d2
    /\ d' = CreateInvoiceForm.flip_sources w s d2.
Proof.
  unfold CreateInvoiceForm.handleSubmit.
  destruct (CreateInvoiceForm.user w); [|discriminate].
  destruct (CreateInvoiceForm.selectedPropertyId s); [|discriminate].
  destruct (CreateInvoiceForm.selectedUnitId s); [|discriminate].
  destruct (CreateInvoiceForm.selectedTenant s); [|discriminate].
  destruct (CreateInvoiceForm.invoiceItems s) as [|item0 items] eqn:Ei; [discriminate|].
  destruct (CreateInvoiceForm.invoices_request_fails w); [discriminate|].
  destruct (insert_invoice _ _ _ _ _ _ _ _) as [d1 [inv1|]] eqn:Einv; [|discriminate].
  destruct (CreateInvoiceForm.items_request_fails w); [discriminate|].
  destruct (insert_invoice_items _ _) as [d2|] eqn:Eit; [|discriminate].
  intros E. inversion E; subst; clear E.
  exists d1, d2. repeat split; try assumption. discriminate.
Qed.


Lemma invoiceItemsData_keys w id n items k :
  In k (map item_invoice_id (CreateInvoiceForm.invoiceItemsData w id n items)) ->
  k = Some id.
Proof.
  revert n. induction items as [|item r IH]; intros n H; [destruct H|].
  simpl in H. destruct H as [H|H]; [symmetry; exact H|apply (IH (S n)), H].
Qed.

Lemma invoiceItemsData_key_present w id n items :
  items <> [] ->
  In (Some id) (map item_invoice_id (CreateInvoiceForm.invoiceItemsData w id n items)).
Proof. destruct items; [congruence|]. intros _. left. reflexivity. Qed.

Lemma invoice_exists_In k d inv :
  In inv (invoices d) -> inv_id inv = k -> invoice_exists k d = true.
Proof.
  intros Hin Hid. unfold invoice_exists. apply existsb_exists.
  exists inv. split; [exact Hin|]. rewrite Hid. apply Nat.eqb_refl.
Qed.


(** The stored rows of a freshly created invoice, read back after the items
    went in. *)
Lemma created_rows w s d d' inv :
  CreateInvoiceForm.handleSubmit w s d = (d', CreateInvoiceForm.Created inv) ->
  inv_status inv = draft
  /\ subtotal inv = CreateInvoiceForm.subtotal (CreateInvoiceForm.calculateTotals s)
  /\ tax_amount inv = CreateInvoiceForm.taxAmount (CreateInvoiceForm.calculateTotals s)
  /\ total_amount inv = CreateInvoiceForm.total (CreateInvoiceForm.calculateTotals s)
  /\ invoice_exists (inv_id inv) d = false
  /\ invoice_items d'
     = invoice_items d
       ++ CreateInvoiceForm.invoiceItemsData w (inv_id inv) 0
            (CreateInvoiceForm.invoiceItems s)
  /\ map inv_id (invoices d') = map inv_id (invoices d) ++ [inv_id inv]
  /\ map inv_status (invoices d') = map inv_status (invoices d) ++ [draft]
  /\ forall row, In row (invoices d') -> inv_id row = inv_id inv ->
       tax_amount row = tax_amount inv
       /\ subtotal row
          = COALESCE (SUM (active_amounts (Some (inv_id inv)) (invoice_items d'))) 0
       /\ total_amount row = (subtotal row + tax_amount row)%Q.
Proof.
  intros H. apply handleSubmit_created in H.
  destruct H as [d1 [d2 [Hne [Hinv [Hit Hd']]]]].
  apply insert_invoice_stored in Hinv.
  destruct Hinv as [[n En] [Hi1 [Ht1 [_ [_ [_ Hfresh]]]]]].
  assert (Eid : inv_id inv = CreateInvoiceForm.new_invoice_id w) by (subst inv; reflexivity).
  rewrite <- Eid in Hfresh.
  unfold insert_invoice_items in Hit.
  destruct (add_rows _ d1) as [d1'|] eqn:Ea; [|discriminate].
  inversion Hit; subst d2; clear Hit. rewrite fire_totals_insert in Hd'.
  apply add_rows_items in Ea. destruct Ea as [Hitems [Hinvs _]].
  destruct (flip_sources_frame w s
              (recompute_keys
                 (map item_invoice_id
                    (CreateInvoiceForm.invoiceItemsData w (inv_id inv) 0
                       (CreateInvoiceForm.invoiceItems s))) d1')) as [Fi [Ft _]].
  rewrite <- Hd' in Fi, Ft.
  assert (Eitems : invoice_items d'
                   = invoice_items d
                     ++ CreateInvoiceForm.invoiceItemsData w (inv_id inv) 0
                          (CreateInvoiceForm.invoiceItems s)).
  { rewrite Ft, recompute_keys_items, Hitems, Ht1. reflexivity. }
  split; [subst inv; reflexivity|]. split; [subst inv; reflexivity|].
  split; [subst inv; reflexivity|]. split; [subst inv; reflexivity|].
  split; [exact Hfresh|]. split; [exact Eitems|].
  split; [rewrite Fi, recompute_keys_ids, Hinvs, Hi1, map_app; reflexivity|].
  split; [rewrite Fi, recompute_keys_status, Hinvs, Hi1, map_app; subst inv; reflexivity|].
  intros row Hrow Hid. rewrite Fi in Hrow.
  destruct (recompute_keys_identity _ d1' row Hrow) as [row0 [Hin0 [A [B [C D]]]]].
  assert (Hkey := invoiceItemsData_key_present w (inv_id inv) 0 _ Hne).
  destruct (recompute_keys_writes (inv_id inv) _ d1' Hkey row Hrow Hid) as [Hs Ht].
  split; [|split; [|exact Ht]].
  - rewrite Hinvs, Hi1 in Hin0. apply in_app_or in Hin0. destruct Hin0 as [Hold|[E|[]]].
    + assert (Hex := invoice_exists_In (inv_id inv) d row0 Hold).
      rewrite Hex in Hfresh by congruence. discriminate.
    + subst row0. exact C.
  - rewrite Hs, Eitems, Hitems, Ht1. reflexivity.
Qed.





(** ** Hand-off to the billable sources *)

Lemma reference_ids_In t item ref items :
  In item items -> CreateInvoiceForm.is_type t item = true ->
  CreateInvoiceForm.reference_id item = Some ref ->
  In ref (CreateInvoiceForm.reference_ids t items).
Proof.
  intros Hin Ht Hr. induction items as [|x r IH]; [destruct Hin|].
  simpl. destruct Hin as [E|Hin].
  - subst x. rewrite Hr, Ht. left. reflexivity.
  - destruct (CreateInvoiceForm.reference_id x); [|apply IH, Hin].
    destruct (CreateInvoiceForm.is_type t x); [right|]; apply IH, Hin.
Qed.

Lemma mark_invoiced_status ids t u :
  In u (mark_invoiced ids t) -> In (src_id u) ids -> src_status u = invoiced.
Proof.
  intros Hin Hid. unfold mark_invoiced in Hin. apply in_map_iff in Hin.
  destruct Hin as [u0 [E Hin0]].
  destruct (existsb (Nat.eqb (src_id u0)) ids) eqn:Ex.
  - subst u. reflexivity.
  - subst u. assert (existsb (Nat.eqb (src_id u0)) ids = true).
    { apply existsb_exists. exists (src_id u0). split; [exact Hid|apply Nat.eqb_refl]. }
    congruence.
Qed.

Lemma flip_sources_utilities w s d ref u :
  CreateInvoiceForm.utilities_request_fails w = false ->
  In ref (CreateInvoiceForm.reference_ids utility (CreateInvoiceForm.invoiceItems s)) ->
  In u (utilities (CreateInvoiceForm.flip_sources w s d)) -> src_id u = ref ->
  src_status u = invoiced.
Proof.
  intros Hf Href Hu Hid. unfold CreateInvoiceForm.flip_sources in Hu. rewrite Hf in Hu.
  destruct (CreateInvoiceForm.reference_ids utility _) as [|r0 rs] eqn:Eu; [destruct Href|].
  assert (Hu' : In u (mark_invoiced (r0 :: rs) (utilities d))).
  { destruct (CreateInvoiceForm.reference_ids deposit _); [exact Hu|].
    destruct (CreateInvoiceForm.deposits_request_fails w); exact Hu. }
  apply (mark_invoiced_status _ _ _ Hu'). rewrite Hid. exact Href.
Qed.

Lemma flip_sources_deposits w s d ref u :
  CreateInvoiceForm.deposits_request_fails w = false ->
  In ref (CreateInvoiceForm.reference_ids deposit (CreateInvoiceForm.invoiceItems s)) ->
  In u (deposits (CreateInvoiceForm.flip_sources w s d)) -> src_id u = ref ->
  src_status u = invoiced.
Proof.
  intros Hf Href Hu Hid. unfold CreateInvoiceForm.flip_sources in Hu. rewrite Hf in Hu.
  destruct (CreateInvoiceForm.reference_ids deposit _) as [|r0 rs] eqn:Eu; [destruct Href|].
  assert (Hu' : In u (mark_invoiced (r0 :: rs) (deposits d))).
  { destruct (CreateInvoiceForm.reference_ids utility _); [exact Hu|].
    destruct (CreateInvoiceForm.utilities_request_fails w); exact Hu. }
  apply (mark_invoiced_status _ _ _ Hu'). rewrite Hid. exact Href.
Qed.

Lemma insert_invoice_items_sources rows d d2 :
  insert_invoice_items rows d = Some d2 ->
  utilities d2 = utilities d /\ deposits d2 = deposits d.
Proof.
  unfold insert_invoice_items. destruct (add_rows rows d) as [d1|] eqn:Ea; [|discriminate].
  intros E. inversion E; subst d2; clear E. rewrite fire_totals_insert.
  destruct (recompute_keys_frame (map item_invoice_id rows) d1) as [_ [A [B _]]].
  apply add_rows_items in Ea. destruct Ea as [_ [_ [_ [C [D _]]]]].
  rewrite A, B, C, D. split; reflexivity.
Qed.

(** A submission that does not end in success stored no item and flipped no
    source; at most the invoice row went in. *)
Lemma handleSubmit_not_created w s d d' r :
  CreateInvoiceForm.handleSubmit w s d = (d', r) ->
  (forall inv, r <> CreateInvoiceForm.Created inv) ->
  invoice_items d' = invoice_items d
  /\ utilities d' = utilities d /\ deposits d' = deposits d
  /\ (invoices d' = invoices d \/ exists inv, invoices d' = invoices d ++ [inv]).
Proof.
  unfold CreateInvoiceForm.handleSubmit. intros H Hr.
  assert (Same : d' = d ->
                 invoice_items d' = invoice_items d
                 /\ utilities d' = utilities d /\ deposits d' = deposits d
                 /\ (invoices d' = invoices d
                     \/ exists inv, invoices d' = invoices d ++ [inv])).
  { intros E. subst d'. repeat split. left. reflexivity. }
  destruct (CreateInvoiceForm.user w); [|inversion H; auto].
  destruct (CreateInvoiceForm.selectedPropertyId s); [|inversion H; auto].
  destruct (CreateInvoiceForm.selectedUnitId s); [|inversion H; auto].
  destruct (CreateInvoiceForm.selectedTenant s); [|inversion H; auto].
  destruct (CreateInvoiceForm.invoiceItems s) as [|item0 items]; [inversion H; auto|].
  destruct (CreateInvoiceForm.invoices_request_fails w); [inversion H; auto|].
  destruct (insert_invoice _ _ _ _ _ _ _ _) as [d1 [inv1|]] eqn:Einv.
  - apply insert_invoice_stored in Einv.
    destruct Einv as [_ [Hi [Ht [_ [Hu [Hd _]]]]]].
    assert (Partial : d' = d1 ->
                      invoice_items d' = invoice_items d
                      /\ utilities d' = utilities d /\ deposits d' = deposits d
                      /\ (invoices d' = invoices d
                          \/ exists inv, invoices d' = invoices d ++ [inv])).
    { intros E. subst d'. repeat split; try assumption. right. exists inv1. exact Hi. }
    destruct (CreateInvoiceForm.items_request_fails w); [inversion H; auto|].
    destruct (insert_invoice_items _ _) as [d2|]; [|inversion H; auto].
    inversion H; subst. exfalso. apply (Hr inv1). reflexivity.
  - apply insert_invoice_refused in Einv. inversion H; subst.
    repeat split. left. reflexivity.
Qed.

(** C4, as the form does it.  The items are stored before any source is
    flipped: at the moment the item request returns, utilities and deposits
    are as they were.  The steps are separate requests: when a submission
    stops short of success no item is stored and no source is flipped, but
    the invoice row inserted before an item failure stays.  When the
    submission succeeds and the utilities request goes through, every
    utility record referenced by a utility item reads 'invoiced'; likewise
    for deposits. *)
Theorem invoice_creation_steps :
  forall w s d d' r,
    CreateInvoiceForm.handleSubmit w s d = (d', r) ->
    (forall inv, r = CreateInvoiceForm.Created inv ->
       exists d1 d2,
         insert_invoice (CreateInvoiceForm.today w) (CreateInvoiceForm.new_invoice_id w)
           None
           (CreateInvoiceForm.subtotal (CreateInvoiceForm.calculateTotals s))
           (CreateInvoiceForm.taxAmount (CreateInvoiceForm.calculateTotals s))
           (CreateInvoiceForm.total (CreateInvoiceForm.calculateTotals s))
           draft d = (d1, Some inv)
         /\ insert_invoice_items
              (CreateInvoiceForm.invoiceItemsData w (inv_id inv) 0
                 (CreateInvoiceForm.invoiceItems s)) d1 = Some d2
         /\ utilities d2 = utilities d /\ deposits d2 = deposits d
         /\ d' = CreateInvoiceForm.flip_sources w s d2)
    /\ ((forall inv, r <> CreateInvoiceForm.Created inv) ->
        invoice_items d' = invoice_items d
        /\ utilities d' = utilities d /\ deposits d' = deposits d
        /\ (invoices d' = invoices d \/ exists inv, invoices d' = invoices d ++ [inv]))
    /\ (forall inv item ref u,
          r = CreateInvoiceForm.Created inv ->
          In item (CreateInvoiceForm.invoiceItems s) ->
          CreateInvoiceForm.reference_id item = Some ref ->
          (CreateInvoiceForm.type item = utility ->
           CreateInvoiceForm.utilities_request_fails w = false ->
           In u (utilities d') -> src_id u = ref -> src_status u = invoiced)
          /\ (CreateInvoiceForm.type item = deposit ->
              CreateInvoiceForm.deposits_request_fails w = false ->
              In u (deposits d') -> src_id u = ref -> src_status u = invoiced)).
Proof.
  intros w s d d' r H. split; [|split].
  - intros inv E. subst r. destruct (handleSubmit_created w s d d' inv H)
      as [d1 [d2 [_ [Hinv [Hit Hd']]]]].
    exists d1, d2. split; [exact Hinv|]. split; [exact Hit|].
    destruct (insert_invoice_items_sources _ _ _ Hit) as [A B].
    apply insert_invoice_stored in Hinv. destruct Hinv as [_ [_ [_ [_ [C [D _]]]]]].
    rewrite A, B, C, D. repeat split. exact Hd'.
  - apply (handleSubmit_not_created w s d d' r H).
  - intros inv item ref u E Hin Href. subst r.
    destruct (handleSubmit_created w s d d' inv H) as [d1 [d2 [_ [_ [_ Hd']]]]].
    subst d'. split.
    + intros Ht Hf Hu Hid. apply (flip_sources_utilities w s d2 ref u Hf); try assumption.
      apply (reference_ids_In utility item); try assumption.
      unfold CreateInvoiceForm.is_type. rewrite Ht. reflexivity.
    + intros Ht Hf Hu Hid. apply (flip_sources_deposits w s d2 ref u Hf); try assumption.
      apply (reference_ids_In deposit item); try assumption.
      unfold CreateInvoiceForm.is_type. rewrite Ht. reflexivity.
Qed.

(** The item request is turned down after the invoice went in: the
    submission fails, and the invoice row INV-20250223-0001 stays behind
    without any item. *)
Lemma creation_is_not_atomic :
  ~ creation_atomic
  /\ snd (CreateInvoiceForm.handleSubmit Sample.office_items_down Sample.rent_and_water
            Sample.sources_db) = CreateInvoiceForm.Failed
  /\ invoices Sample.sources_db = []
  /\ map invoice_number
       (invoices (fst (CreateInvoiceForm.handleSubmit Sample.office_items_down
                         Sample.rent_and_water Sample.sources_db)))
     = ["INV-20250223-0001"%string]
  /\ invoice_items (fst (CreateInvoiceForm.handleSubmit Sample.office_items_down
                           Sample.rent_and_water Sample.sources_db)) = [].
Proof.
  split; [|vm_compute; repeat split].
  intros H.
  destruct (H Sample.office_items_down Sample.rent_and_water Sample.sources_db)
    as [Hinv _].
  - intros inv. vm_compute. discriminate.
  - vm_compute in Hinv. discriminate Hinv.
Qed.

(** ** After cancellation *)

Lemma db_ext (a b : db) :
  invoices a = invoices b -> invoice_items a = invoice_items b ->
  payments a = payments b -> utilities a = utilities b ->
  deposits a = deposits b -> invoice_number_seq a = invoice_number_seq b ->
  a = b.
Proof. destruct a, b; simpl; intros; subst; reflexivity. Qed.











(** ** Invoice numbers *)

Lemma length_app_string (a b : string) :
  String.length (a ++ b)%string = (String.length a + String.length b)%nat.
Proof. induction a as [|c a IH]; simpl; [reflexivity|]. rewrite IH. reflexivity. Qed.

Lemma length_substring_prefix n s :
  (n <= String.length s)%nat -> String.length (substring 0 n s) = n.
Proof.
  revert s. induction n as [|n IH]; intros s H.
  - destruct s; reflexivity.
  - destruct s as [|c s]; simpl in *; [lia|]. rewrite IH by lia. reflexivity.
Qed.

Lemma length_cycle_fill n c fill cur :
  String.length (cycle_fill n (String c fill) cur) = n.
Proof.
  revert cur. induction n as [|n IH]; intros cur; [reflexivity|].
  simpl. destruct cur; simpl; rewrite IH; reflexivity.
Qed.

Lemma lpad_length s len c fill :
  String.length (lpad s len (String c fill)) = len.
Proof.
  unfold lpad. destruct (Nat.leb len (String.length s)) eqn:E.
  - apply length_substring_prefix. apply Nat.leb_le. exact E.
  - apply Nat.leb_gt in E. rewrite length_app_string, length_cycle_fill. lia.
Qed.

(** What does hold of every number handed out: the prefix, the date, and an
    ordinal field of exactly four characters; the sequence moves by one. *)
Lemma invoice_number_shape today d n d1 :
  generate_invoice_number today d = (Some n, d1) ->
  invoice_number_seq d1 = (invoice_number_seq d + 1)%Z
  /\ exists ordinal,
       n = ("INV-" ++ today ++ "-" ++ ordinal)%string /\ String.length ordinal = 4%nat.
Proof.
  unfold generate_invoice_number, nextval.
  destruct (_ <=? _)%Z; [|discriminate]. intros E. inversion E; subst; clear E.
  split; [reflexivity|]. eexists. split; [reflexivity|]. apply lpad_length.
Qed.

(** C8 at the failing input.  With 9999 numbers handed out, the next two
    calls on 23 February 2025 both return INV-20250223-1000, the number that
    call 1000 of that day returns as well: the fifth digit of the counter is
    cut off.  The second of two invoices created then is refused by
    UNIQUE (invoice_number), and the sequence has moved on to 10001. *)
Theorem invoice_number_reused_after_9999 :
  fst (generate_invoice_number "20250223" (with_seq 9999 Sample.empty_db))
  = Some "INV-20250223-1000"%string
  /\ fst (generate_invoice_number "20250223"
            (snd (generate_invoice_number "20250223" (with_seq 9999 Sample.empty_db))))
     = Some "INV-20250223-1000"%string
  /\ fst (generate_invoice_number "20250223" (with_seq 999 Sample.empty_db))
     = Some "INV-20250223-1000"%string
  /\ (let first := insert_invoice "20250223" 100 None 10 0 10 draft
                     (with_seq 9999 Sample.empty_db) in
      let second := insert_invoice "20250223" 101 None 20 0 20 draft (fst first) in
      snd first = Some (mk_invoice 100 "INV-20250223-1000" 10 0 10 draft)
      /\ snd second = None
      /\ invoice_number_seq (fst second) = 10001%Z).
Proof. vm_compute. repeat split. Qed.

(** ** Deleting the last item of a taxed invoice *)

(** Invoice 1 carries one active item of 100 and a tax of 16: once the item
    is deleted its subtotal is 0 and its total_amount is 16. *)
Lemma total_keeps_tax_after_last_delete :
  map subtotal (invoices (delete_invoice_item 10 Sample.one_item_db)) = [0]
  /\ invoice_items (delete_invoice_item 10 Sample.one_item_db) = []
  /\ (forall inv, In inv (invoices (delete_invoice_item 10 Sample.one_item_db)) ->
                  total_amount inv == 16 /\ ~ total_amount inv == 0).
Proof.
  split; [reflexivity|]. split; [reflexivity|].
  intros inv [E|[]]. subst inv. vm_compute. split; [reflexivity|discriminate].
Qed.

(* ================================================================== *)
(** * The theorems at work on the sample data *)



(** Against a total of 1000: one payment of 1000 gives 'paid', one payment
    of 400 gives 'partially_paid', payments of 600 and then 500 give
    'partially_paid' and then 'paid'. *)
Example payment_scenarios :
  option_map (fun d => map inv_status (invoices d))
    (insert_payment (Sample.pay 1 1000) Sample.unpaid_db) = Some [paid]
  /\ option_map (fun d => map inv_status (invoices d))
       (insert_payment (Sample.pay 1 400) Sample.unpaid_db) = Some [partially_paid]
  /\ insert_payment (Sample.pay 1 600) Sample.unpaid_db = Some Sample.part_paid_db
  /\ option_map (fun d => map inv_status (invoices d))
       (insert_payment (Sample.pay 2 500) Sample.part_paid_db) = Some [paid].
Proof. vm_compute. repeat split. Qed.





Lemma delete_last_active_item_witness :
  In (mk_invoice 1 "INV-20250223-0001" 0 16 16 sent)
     (invoices (delete_invoice_item 10 Sample.one_item_db))
  /\ (0 = 0 /\ 16 == 16
      /\ exists inv, In inv (invoices Sample.one_item_db) /\ inv_id inv = 1%nat
                     /\ 16 = tax_amount inv).
Proof.
  assert (Hin : In (mk_invoice 1 "INV-20250223-0001" 0 16 16 sent)
                   (invoices (delete_invoice_item 10 Sample.one_item_db)))
    by (left; reflexivity).
  split; [exact Hin|].
  refine (delete_last_active_item Sample.one_item_db 10%nat 1%nat
            (mk_item 10 (Some 1%nat) rent "Monthly Rent" 100 None active)
            (or_introl eq_refl) eq_refl eq_refl eq_refl _ _ Hin eq_refl).
  intros it [E|[]] _ _. subst it. reflexivity.
Defined.



Lemma invoice_creation_steps_witness :
  snd (CreateInvoiceForm.handleSubmit Sample.office Sample.rent_and_water
         Sample.sources_db)
  = CreateInvoiceForm.Created
      (mk_invoice 100 "INV-20250223-0001" 1150 (18400 # 100) (133400 # 100) draft)
  /\ In (mk_source 70 150 invoiced)
        (utilities (fst (CreateInvoiceForm.handleSubmit Sample.office
                           Sample.rent_and_water Sample.sources_db)))
  /\ src_status (mk_source 70 150 invoiced) = invoiced.
Proof.
  split; [reflexivity|].
  assert (Hin : In (mk_source 70 150 invoiced)
                   (utilities (fst (CreateInvoiceForm.handleSubmit Sample.office
                                      Sample.rent_and_water Sample.sources_db))))
    by (left; reflexivity).
  split; [exact Hin|].
  destruct (invoice_creation_steps Sample.office Sample.rent_and_water
              Sample.sources_db _ _ eq_refl) as [_ [_ H]].
  destruct (H _ (CreateInvoiceForm.mk_InvoiceItem utility "Water - 2/2025" 150
                   (Some 70%nat))
              70%nat (mk_source 70 150 invoiced) eq_refl
              (or_intror (or_introl eq_refl)) eq_refl) as [Hu _].
  exact (Hu eq_refl eq_refl Hin eq_refl).
Defined.



(* ================================================================== *)
(** * Further properties of the triggers and the forms *)

(** ** The totals trigger, once more *)

Lemma update_where_id_twice (pa pc : uuid -> bool) s (l : list invoice) :
  map (fun inv => if pc (inv_id inv) then set_total_from_parts inv else inv)
    (map (fun inv => if pa (inv_id inv) then set_subtotal s inv else inv)
       (map (fun inv => if pc (inv_id inv) then set_total_from_parts inv else inv)
          (map (fun inv => if pa (inv_id inv) then set_subtotal s inv else inv) l)))
  = map (fun inv => if pc (inv_id inv) then set_total_from_parts inv else inv)
      (map (fun inv => if pa (inv_id inv) then set_subtotal s inv else inv) l).
Proof.
  rewrite !map_map. apply map_ext. intros inv.
  destruct (pa (inv_id inv)) eqn:Ea; destruct (pc (inv_id inv)) eqn:Ec;
    unfold set_subtotal, set_total_from_parts;
    repeat (progress (simpl; rewrite ?Ea, ?Ec)); reflexivity.
Qed.

(** X1.  Firing the totals trigger a second time for the same row, with no
    item changed in between, leaves the database exactly as the first firing
    left it. *)
Theorem update_invoice_totals_idempotent :
  forall (TG_OP : tg_op) (NEW OLD : option invoice_item) (d : db),
    update_invoice_totals TG_OP NEW OLD (update_invoice_totals TG_OP NEW OLD d)
    = update_invoice_totals TG_OP NEW OLD d.
Proof.
  intros TG_OP NEW OLD d. apply db_ext; try (destruct TG_OP; reflexivity).
  destruct TG_OP; unfold update_invoice_totals, update_invoices_where_id, with_invoices;
    cbn [invoices invoice_items];
    apply (update_where_id_twice
             (fun x => sql_eq (Some x) _) (fun x => sql_eq (Some x) _)).
Qed.

Lemma recomputed_twice s inv : recomputed s (recomputed s inv) = recomputed s inv.
Proof. reflexivity. Qed.

(** The rows after the queued triggers ran, in closed form. *)
Lemma recompute_keys_rows keys d :
  invoices (recompute_keys keys d) = recomputed_rows keys d.
Proof.
  unfold recomputed_rows. revert d. induction keys as [|k r IH]; intros d.
  - simpl. symmetry. apply map_id.
  - change (recompute_keys (k :: r) d) with (recompute_keys r (recompute k d)).
    rewrite IH, recompute_items, recompute_invoices, map_map. apply map_ext.
    intros inv. cbn [existsb].
    destruct (sql_eq (Some (inv_id inv)) k) eqn:Ek.
    + apply sql_eq_true in Ek. subst k. cbn [inv_id recomputed orb].
      destruct (existsb (sql_eq (Some (inv_id inv))) r); reflexivity.
    + cbn [orb]. reflexivity.
Qed.

Lemma step_rows op d :
  invoices (step op d)
  = map (fun inv =>
           if existsb (sql_eq (Some (inv_id inv))) (affected op d)
           then recomputed
                  (COALESCE
                     (SUM (active_amounts (Some (inv_id inv))
                             (invoice_items (step op d)))) 0) inv
           else inv)
        (invoices d).
Proof.
  destruct op as [it|k s|k]; unfold step, affected.
  - unfold insert_invoice_items. cbn [add_rows].
    destruct (item_row_ok d it); cbn [COALESCE].
    + rewrite fire_totals_insert, recompute_keys_rows, recompute_keys_items.
      reflexivity.
    + cbn [existsb]. symmetry. apply map_id.
  - unfold update_item_status.
    rewrite fire_totals_update, recompute_keys_rows, recompute_keys_items. reflexivity.
  - unfold delete_invoice_item.
    rewrite fire_totals_delete, recompute_keys_rows, recompute_keys_items. reflexivity.
Qed.

(** X2.  An item statement rewrites subtotal and total_amount of exactly the
    invoices whose items it changed, to the sum of their active items and
    that sum plus tax_amount; the row of every other invoice, and the number,
    tax_amount and status of every invoice, stay as they were. *)
Theorem item_statement_touches_only_its_invoices :
  forall (op : item_op) (d : db),
    (forall inv, In inv (invoices d) ->
                 ~ In (Some (inv_id inv)) (affected op d) ->
                 In inv (invoices (step op d)))
    /\ (forall inv', In inv' (invoices (step op d)) ->
          exists inv,
            In inv (invoices d)
            /\ inv_id inv' = inv_id inv /\ invoice_number inv' = invoice_number inv
            /\ tax_amount inv' = tax_amount inv /\ inv_status inv' = inv_status inv
            /\ (In (Some (inv_id inv)) (affected op d) ->
                subtotal inv'
                = COALESCE (SUM (active_amounts (Some (inv_id inv))
                                   (invoice_items (step op d)))) 0
                /\ total_amount inv' = (subtotal inv' + tax_amount inv')%Q)
            /\ (~ In (Some (inv_id inv)) (affected op d) -> inv' = inv)).
Proof.
  intros op d. split.
  - intros inv Hin Hn. rewrite step_rows. apply in_map_iff. exists inv.
    split; [|exact Hin].
    destruct (existsb (sql_eq (Some (inv_id inv))) (affected op d)) eqn:E;
      [|reflexivity].
    apply existsb_sql_eq in E. contradiction.
  - intros inv' Hin. rewrite step_rows in Hin. apply in_map_iff in Hin.
    destruct Hin as [inv [E Hin]]. exists inv. split; [exact Hin|].
    destruct (existsb (sql_eq (Some (inv_id inv))) (affected op d)) eqn:Ex;
      subst inv'; cbn [inv_id invoice_number tax_amount inv_status recomputed];
      repeat (split; [reflexivity|]); split.
    + intros _. split; reflexivity.
    + intros Hn. apply existsb_sql_eq in Ex. contradiction.
    + intros Hy. apply existsb_sql_eq in Hy. congruence.
    + intros _. reflexivity.
Qed.

(** ** The table constraints as an invariant *)




Lemma item_row_ok_facts d it :
  item_row_ok d it = true ->
  0 <= amount it
  /\ ~ In (item_id it) (map item_id (invoice_items d))
  /\ (forall k, item_invoice_id it = Some k -> invoice_exists k d = true).
Proof.
  unfold item_row_ok. intros H.
  apply andb_true_iff in H. destruct H as [H Hfk].
  apply andb_true_iff in H. destruct H as [Ha Hpk].
  split; [apply Qle_bool_iff, Ha|]. split.
  - apply negb_true_iff in Hpk. intros Hin. apply in_map_iff in Hin.
    destruct Hin as [x [Ex Hx]].
    assert (existsb (has_item_id (item_id it)) (invoice_items d) = true).
    { apply existsb_exists. exists x. split; [exact Hx|].
      unfold has_item_id. rewrite Ex. apply Nat.eqb_refl. }
    congruence.
  - intros k Ek. rewrite Ek in Hfk. exact Hfk.
Qed.

Lemma set_status_keeps_ids k s items :
  map item_id (map (fun it => if has_item_id k it then set_item_status s it else it) items)
  = map item_id items.
Proof.
  rewrite map_map. apply map_ext. intros it. destruct (has_item_id k it); reflexivity.
Qed.

Lemma NoDup_map_filter {A B} (f : A -> B) (p : A -> bool) l :
  NoDup (map f l) -> NoDup (map f (filter p l)).
Proof.
  induction l as [|x l IH]; intros H; simpl; [constructor|].
  inversion H as [|y m Hnin Hnd]; subst.
  destruct (p x); simpl; [|apply IH, Hnd].
  constructor; [|apply IH, Hnd].
  intros Hin. apply Hnin. apply in_map_iff in Hin. destruct Hin as [z [Ez Hz]].
  apply filter_In in Hz. rewrite <- Ez. apply in_map, Hz.
Qed.

Lemma NoDup_snoc {A} (l : list A) (x : A) :
  NoDup l -> ~ In x l -> NoDup (l ++ [x]).
Proof.
  induction l as [|y l IH]; intros Hn Hx; simpl.
  - constructor; [intros []|constructor].
  - inversion Hn as [|z m Hy Hl]; subst. constructor.
    + intros Hin. apply in_app_or in Hin. destruct Hin as [Hin|[E|[]]].
      * contradiction.
      * subst y. apply Hx. left. reflexivity.
    + apply IH; [exact Hl|]. intros Hin. apply Hx. right. exact Hin.
Qed.






(** ** Accepting and refusing item rows *)

Lemma item_row_ok_iff d it : item_row_ok d it = true <-> row_acceptable d it.
Proof.
  split; [apply item_row_ok_facts|].
  intros [Ha [Hpk Hfk]]. unfold item_row_ok.
  apply andb_true_iff. split; [apply andb_true_iff; split|].
  - apply Qle_bool_iff, Ha.
  - apply negb_true_iff. destruct (existsb _ _) eqn:E; [|reflexivity].
    apply existsb_exists in E. destruct E as [x [Hx Ex]].
    unfold has_item_id in Ex. apply Nat.eqb_eq in Ex.
    exfalso. apply Hpk. rewrite <- Ex. apply in_map, Hx.
  - destruct (item_invoice_id it) as [k|]; [apply Hfk; reflexivity|reflexivity].
Qed.

Lemma add_rows_iff rows d :
  (exists d1, add_rows rows d = Some d1)
  <-> (forall it, In it rows -> row_acceptable d it) /\ NoDup (map item_id rows).
Proof.
  revert d. induction rows as [|it r IH]; intros d.
  - simpl. split; [intros _; split; [intros it []|constructor]|intros _; eexists; reflexivity].
  - cbn [add_rows]. destruct (item_row_ok d it) eqn:Eok.
    + rewrite IH. apply item_row_ok_iff in Eok. destruct Eok as [Ha [Hpk Hfk]].
      split.
      * intros [Hall Hnd]. split.
        -- intros x [E|Hx]; [subst x; repeat split; assumption|].
           destruct (Hall x Hx) as [A [B C]]. split; [exact A|]. split; [|exact C].
           intros Hin. apply B. simpl. rewrite map_app. apply in_or_app. left. exact Hin.
        -- simpl. constructor; [|exact Hnd].
           intros Hin. apply in_map_iff in Hin. destruct Hin as [x [Ex Hx]].
           destruct (Hall x Hx) as [_ [B _]]. apply B. simpl. rewrite map_app.
           apply in_or_app. right. left. symmetry. exact Ex.
      * intros [Hall Hnd]. simpl in Hnd. inversion Hnd as [|y m Hnin Hnd']; subst.
        split; [|exact Hnd'].
        intros x Hx. destruct (Hall x (or_intror Hx)) as [A [B C]].
        split; [exact A|]. split; [|exact C].
        simpl. rewrite map_app. intros Hin. apply in_app_or in Hin.
        destruct Hin as [Hin|[E|[]]]; [contradiction|].
        apply Hnin. rewrite E. apply in_map, Hx.
    + split; [intros [d1 E]; discriminate|].
      intros [Hall _]. assert (Hok : item_row_ok d it = true).
      { apply item_row_ok_iff. apply Hall. left. reflexivity. }
      congruence.
Qed.

(** X4.  A multi-row insert into invoice_items is accepted exactly when every
    row has a non-negative amount, a key that is neither stored yet nor used
    twice in the statement, and an invoice_id that is NULL or names an
    existing invoice; it then stores all the rows, in order, and nothing
    else changes but the totals of their invoices. *)
Theorem bulk_insert_all_or_nothing :
  forall (rows : list invoice_item) (d : db),
    ((exists d', insert_invoice_items rows d = Some d')
     <-> (forall it, In it rows -> row_acceptable d it) /\ NoDup (map item_id rows))
    /\ (forall d', insert_invoice_items rows d = Some d' ->
          invoice_items d' = invoice_items d ++ rows
          /\ invoices d' = recomputed_rows (map item_invoice_id rows)
                             (with_items (fun t => t ++ rows) d)
          /\ payments d' = payments d /\ utilities d' = utilities d
          /\ deposits d' = deposits d
          /\ invoice_number_seq d' = invoice_number_seq d).
Proof.
  intros rows d. split.
  - rewrite <- add_rows_iff. unfold insert_invoice_items.
    destruct (add_rows rows d) as [d1|]; split; intros [x E];
      try discriminate; eexists; reflexivity.
  - intros d' H. unfold insert_invoice_items in H.
    destruct (add_rows rows d) as [d1|] eqn:Ea; [|discriminate].
    inversion H; subst d'; clear H. rewrite fire_totals_insert.
    apply add_rows_items in Ea. destruct Ea as [Ei [Ev [Ep [Eu [Ed Es]]]]].
    destruct (recompute_keys_frame (map item_invoice_id rows) d1) as [A [B [C D]]].
    rewrite recompute_keys_items, recompute_keys_rows, A, B, C, D.
    repeat split; try assumption.
    unfold recomputed_rows. rewrite Ei, Ev. reflexivity.
Qed.

(** ** Insert and delete, void and re-activate *)

Lemma filter_other_ids k items :
  ~ In k (map item_id items) ->
  filter (fun it => negb (has_item_id k it)) items = items.
Proof.
  induction items as [|it r IH]; intros H; [reflexivity|]. simpl in *.
  destruct (has_item_id k it) eqn:E.
  - unfold has_item_id in E. apply Nat.eqb_eq in E. exfalso. apply H. left. exact E.
  - simpl. f_equal. apply IH. intros Hin. apply H. right. exact Hin.
Qed.

Lemma Forall2_map_same {A} (R : A -> A -> Prop) (f : A -> A) (l : list A) :
  (forall x, In x l -> R (f x) x) -> Forall2 R (map f l) l.
Proof.
  induction l as [|x l IH]; intros H; simpl; constructor.
  - apply H. left. reflexivity.
  - apply IH. intros y Hy. apply H. right. exact Hy.
Qed.

Lemma insert_single it d d1 :
  insert_invoice_items [it] d = Some d1 ->
  item_row_ok d it = true
  /\ d1 = recompute (item_invoice_id it) (with_items (fun t => t ++ [it]) d).
Proof.
  unfold insert_invoice_items. cbn [add_rows].
  destruct (item_row_ok d it); [|discriminate].
  intros H. inversion H. split; [reflexivity|].
  cbn [map fire_totals]. apply trigger_insert.
Qed.

Lemma delete_fresh_item it d :
  ~ In (item_id it) (map item_id (invoice_items d)) ->
  delete_invoice_item (item_id it)
    (recompute (item_invoice_id it) (with_items (fun t => t ++ [it]) d))
  = recompute (item_invoice_id it) d.
Proof.
  intros Hpk. unfold delete_invoice_item. rewrite fire_totals_delete.
  rewrite recompute_items. cbn [invoice_items with_items].
  assert (Ekeys : filter (has_item_id (item_id it)) (invoice_items d ++ [it]) = [it]).
  { rewrite filter_app, no_id_filter_nil by exact Hpk. cbn [filter app].
    unfold has_item_id. rewrite Nat.eqb_refl. reflexivity. }
  rewrite Ekeys. cbn [map]. unfold recompute_keys. cbn [fold_left].
  assert (Eitems : filter (fun it0 => negb (has_item_id (item_id it) it0))
                     (invoice_items d ++ [it]) = invoice_items d).
  { rewrite filter_app, filter_other_ids by exact Hpk. cbn [filter].
    unfold has_item_id. rewrite Nat.eqb_refl. cbn [negb]. apply app_nil_r. }
  apply db_ext; try reflexivity.
  - rewrite !recompute_invoices. cbn [invoices invoice_items with_items].
    rewrite recompute_items. cbn [invoice_items with_items].
    rewrite recompute_invoices. cbn [invoices invoice_items with_items].
    rewrite Eitems, map_map. apply map_ext. intros inv.
    destruct (sql_eq (Some (inv_id inv)) (item_invoice_id it)) eqn:E;
      cbn [inv_id recomputed]; rewrite E; reflexivity.
  - rewrite !recompute_items. cbn [invoice_items with_items].
    rewrite recompute_items. exact Eitems.
Qed.

(** X5.  Inserting an item and then deleting it has the effect of one firing
    of the totals trigger on the database as it was: the item table is what
    it was, every invoice keeps its number, tax and status, and an invoice
    whose totals agreed with its items beforehand has its subtotal and
    total_amount back. *)
Theorem insert_then_delete_restores :
  forall (it : invoice_item) (d d1 : db),
    insert_invoice_items [it] d = Some d1 ->
    delete_invoice_item (item_id it) d1 = update_invoice_totals DELETE None (Some it) d
    /\ invoice_items (delete_invoice_item (item_id it) d1) = invoice_items d
    /\ (forall inv', In inv' (invoices (delete_invoice_item (item_id it) d1)) ->
          exists inv,
            In inv (invoices d) /\ same_identity inv' inv
            /\ (totals_ok (invoice_items d) inv ->
                subtotal inv' == subtotal inv
                /\ total_amount inv' == total_amount inv)).
Proof.
  intros it d d1 H. destruct (insert_single it d d1 H) as [Eok E]. subst d1.
  destruct (item_row_ok_facts d it Eok) as [_ [Hpk _]].
  rewrite (delete_fresh_item it d Hpk), trigger_delete.
  split; [reflexivity|]. split; [apply recompute_items|].
  intros inv' Hin. rewrite recompute_invoices in Hin. apply in_map_iff in Hin.
  destruct Hin as [inv [E Hin]]. exists inv. split; [exact Hin|].
  destruct (sql_eq (Some (inv_id inv)) (item_invoice_id it)) eqn:Ek; subst inv'.
  - split; [repeat split|]. intros [Hs Ht]. cbn [subtotal total_amount recomputed].
    apply sql_eq_true in Ek. rewrite <- Ek. rewrite Ht, Hs. split; reflexivity.
  - split; [repeat split|]. intros _. split; reflexivity.
Qed.

Lemma update_item_status_unknown k s d :
  ~ In k (map item_id (invoice_items d)) -> update_item_status k s d = d.
Proof.
  intros H. unfold update_item_status. rewrite fire_totals_update.
  rewrite no_id_filter_nil by exact H. cbn [map]. unfold recompute_keys. cbn [fold_left].
  apply db_ext; try reflexivity. cbn [invoice_items with_items].
  rewrite <- (map_id (invoice_items d)) at 2. apply map_ext_in.
  intros it Hin. destruct (has_item_id k it) eqn:E; [|reflexivity].
  unfold has_item_id in E. apply Nat.eqb_eq in E. exfalso. apply H.
  rewrite <- E. apply in_map, Hin.
Qed.

Lemma filter_set_status k s items :
  filter (has_item_id k)
    (map (fun it => if has_item_id k it then set_item_status s it else it) items)
  = map (set_item_status s) (filter (has_item_id k) items).
Proof.
  induction items as [|it r IH]; [reflexivity|]. cbn [map filter].
  destruct (has_item_id k it) eqn:E.
  - assert (E' : has_item_id k (set_item_status s it) = true) by exact E.
    rewrite E'. cbn [map]. f_equal. exact IH.
  - rewrite E. exact IH.
Qed.

Lemma update_item_status_parts k s d :
  invoice_items (update_item_status k s d)
  = map (fun it => if has_item_id k it then set_item_status s it else it) (invoice_items d)
  /\ invoices (update_item_status k s d)
     = recomputed_rows (map item_invoice_id (filter (has_item_id k) (invoice_items d)))
         (with_items
            (map (fun it => if has_item_id k it then set_item_status s it else it)) d)
  /\ payments (update_item_status k s d) = payments d
  /\ utilities (update_item_status k s d) = utilities d
  /\ deposits (update_item_status k s d) = deposits d
  /\ invoice_number_seq (update_item_status k s d) = invoice_number_seq d.
Proof.
  unfold update_item_status. rewrite fire_totals_update.
  rewrite recompute_keys_items, recompute_keys_rows.
  destruct (recompute_keys_frame
              (map item_invoice_id (filter (has_item_id k) (invoice_items d)))
              (with_items
                 (map (fun it => if has_item_id k it then set_item_status s it else it)) d))
    as [A [B [C D]]].
  rewrite A, B, C, D. repeat split.
Qed.

Lemma update_item_status_idem k s d :
  update_item_status k s (update_item_status k s d) = update_item_status k s d.
Proof.
  destruct (update_item_status_parts k s d) as [Ei [Ev [Ep [Eu [Ed Es]]]]].
  destruct (update_item_status_parts k s (update_item_status k s d))
    as [Ei' [Ev' [Ep' [Eu' [Ed' Es']]]]].
  assert (Eitems : invoice_items (update_item_status k s (update_item_status k s d))
                   = invoice_items (update_item_status k s d)).
  { rewrite Ei', Ei, map_map. apply map_ext. intros it.
    destruct (has_item_id k it) eqn:E.
    - assert (E' : has_item_id k (set_item_status s it) = true) by exact E.
      rewrite E'. reflexivity.
    - rewrite E. reflexivity. }
  apply db_ext; try congruence.
  rewrite Ev'. unfold recomputed_rows at 1. cbn [invoices invoice_items with_items].
  rewrite <- Ei', Eitems, Ei, filter_set_status, map_map.
  cbn [item_invoice_id set_item_status].
  rewrite Ev. unfold recomputed_rows. cbn [invoices invoice_items with_items].
  rewrite map_map. apply map_ext. intros inv.
  change (fun x : invoice_item => item_invoice_id (set_item_status s x))
    with item_invoice_id.
  assert (Eact : forall i,
             active_amounts (Some i)
               (map (fun it => if has_item_id k it then set_item_status s it else it)
                  (map (fun it => if has_item_id k it then set_item_status s it else it)
                     (invoice_items d)))
             = active_amounts (Some i)
                 (map (fun it => if has_item_id k it then set_item_status s it else it)
                    (invoice_items d))).
  { intros i. rewrite <- Ei, <- Ei', Eitems. reflexivity. }
  change (fun x : invoice_item => item_invoice_id x) with item_invoice_id.
  destruct (existsb (sql_eq (Some (inv_id inv)))
              (map item_invoice_id (filter (has_item_id k) (invoice_items d)))) eqn:E;
    cbn [inv_id recomputed]; rewrite E; reflexivity.
Qed.

Lemma reactivate_items k items :
  (forall it, In it items -> item_id it = k -> item_st it = active) ->
  map (fun it => if has_item_id k it then set_item_status active it else it)
    (map (fun it => if has_item_id k it then set_item_status void it else it) items)
  = items.
Proof.
  intros H. rewrite map_map. rewrite <- (map_id items) at 2. apply map_ext_in.
  intros it Hin. destruct (has_item_id k it) eqn:E.
  - assert (E' : has_item_id k (set_item_status void it) = true) by exact E.
    rewrite E'. unfold has_item_id in E. apply Nat.eqb_eq in E.
    specialize (H it Hin E). destruct it; simpl in *. subst. reflexivity.
  - rewrite E. reflexivity.
Qed.

Lemma recomputed_rows_restore keys d inv' :
  In inv' (recomputed_rows keys d) ->
  exists inv,
    In inv (invoices d) /\ same_identity inv' inv
    /\ (totals_ok (invoice_items d) inv ->
        subtotal inv' == subtotal inv /\ total_amount inv' == total_amount inv).
Proof.
  unfold recomputed_rows. intros Hin. apply in_map_iff in Hin.
  destruct Hin as [inv [E Hin]]. exists inv. split; [exact Hin|].
  destruct (existsb _ keys); subst inv'.
  - split; [repeat split|]. intros [Hs Ht]. cbn [subtotal total_amount recomputed].
    rewrite Ht, Hs. split; reflexivity.
  - split; [repeat split|]. intros _. split; reflexivity.
Qed.

Lemma reactivate_after_void k d :
  (forall it, In it (invoice_items d) -> item_id it = k -> item_st it = active) ->
  update_item_status k active (update_item_status k void d)
  = recompute_keys (map item_invoice_id (filter (has_item_id k) (invoice_items d))) d.
Proof.
  intros Hact.
  destruct (update_item_status_parts k void d) as [Ei [Ev [Ep [Eu [Ed Es]]]]].
  destruct (update_item_status_parts k active (update_item_status k void d))
    as [Ei' [Ev' [Ep' [Eu' [Ed' Es']]]]].
  destruct (recompute_keys_frame
              (map item_invoice_id (filter (has_item_id k) (invoice_items d))) d)
    as [A [B [C D]]].
  assert (Eitems : invoice_items (update_item_status k active (update_item_status k void d))
                   = invoice_items d).
  { rewrite Ei', Ei. apply reactivate_items, Hact. }
  apply db_ext; try congruence.
  - rewrite Ev', recompute_keys_rows. unfold recomputed_rows.
    cbn [invoices invoice_items with_items]. rewrite <- Ei', Eitems.
    rewrite Ei, filter_set_status, map_map.
    change (fun x : invoice_item => item_invoice_id (set_item_status void x))
      with (fun x : invoice_item => item_invoice_id x).
    change (fun x : invoice_item => item_invoice_id x) with item_invoice_id.
    rewrite Ev. unfold recomputed_rows. cbn [invoices invoice_items with_items].
    rewrite map_map. apply map_ext. intros inv.
    destruct (existsb (sql_eq (Some (inv_id inv)))
                (map item_invoice_id (filter (has_item_id k) (invoice_items d)))) eqn:E;
      cbn [inv_id recomputed]; rewrite E; reflexivity.
  - rewrite recompute_keys_items. exact Eitems.
Qed.

(** X6.  [void_invoice_item] on a key that no item carries changes nothing;
    voiding twice is voiding once; and re-activating an item that was active
    before it was voided brings the item table back, every invoice to its
    number, tax and status, and every invoice whose totals agreed with its
    items to its subtotal and total_amount. *)
Theorem void_invoice_item_round_trips :
  forall (k : uuid) (d : db),
    (~ In k (map item_id (invoice_items d)) -> void_invoice_item k d = d)
    /\ void_invoice_item k (void_invoice_item k d) = void_invoice_item k d
    /\ ((forall it, In it (invoice_items d) -> item_id it = k -> item_st it = active) ->
        invoice_items (update_item_status k active (void_invoice_item k d))
        = invoice_items d
        /\ forall inv',
             In inv' (invoices (update_item_status k active (void_invoice_item k d))) ->
             exists inv,
               In inv (invoices d) /\ same_identity inv' inv
               /\ (totals_ok (invoice_items d) inv ->
                   subtotal inv' == subtotal inv
                   /\ total_amount inv' == total_amount inv)).
Proof.
  intros k d. split; [apply update_item_status_unknown|].
  split; [apply update_item_status_idem|].
  intros Hact. unfold void_invoice_item. rewrite (reactivate_after_void k d Hact).
  split; [apply recompute_keys_items|].
  intros inv' Hin. rewrite recompute_keys_rows in Hin.
  apply (recomputed_rows_restore _ d inv' Hin).
Qed.

(** ** Invoice numbers below 10000 *)

Lemma ordinals_decode_all : ordinals_decode = true.
Proof. vm_compute. reflexivity. Qed.

Lemma in_hundred x : (0 <= x < 100)%Z -> In x hundred.
Proof.
  intros H. unfold hundred. apply in_map_iff. exists (Z.to_nat x).
  split; [apply Z2Nat.id; lia|]. apply in_seq. lia.
Qed.

Lemma ordinal_round_trip n :
  (1 <= n <= 9999)%Z -> ordinal_value (ordinal_of n) = Some n.
Proof.
  intros H. pose proof ordinals_decode_all as Hall.
  unfold ordinals_decode in Hall. rewrite forallb_forall in Hall.
  assert (Hq : (0 <= n / 100 < 100)%Z).
  { split; [apply Z.div_pos; lia|apply Z.div_lt_upper_bound; lia]. }
  assert (Hr : (0 <= n mod 100 < 100)%Z) by (apply Z.mod_pos_bound; lia).
  specialize (Hall (n / 100)%Z (in_hundred _ Hq)).
  rewrite forallb_forall in Hall.
  specialize (Hall (n mod 100)%Z (in_hundred _ Hr)).
  rewrite <- Z.div_mod in Hall by lia.
  apply orb_true_iff in Hall. destruct Hall as [Hz|Hd].
  - apply Z.eqb_eq in Hz. lia.
  - unfold decodes in Hd. destruct (ordinal_value (ordinal_of n)) as [v|]; [|discriminate].
    apply Z.eqb_eq in Hd. congruence.
Qed.

Lemma append_inj_l (a b c : string) : (a ++ b = a ++ c)%string -> b = c.
Proof. induction a as [|x a IH]; simpl; intros H; [exact H|]. inversion H. auto. Qed.

Lemma append_inj_same_length (a b c e : string) :
  String.length a = String.length c ->
  (a ++ b = c ++ e)%string -> a = c /\ b = e.
Proof.
  revert c. induction a as [|x a IH]; intros [|y c] Hl H; simpl in *; try discriminate.
  - split; [reflexivity|exact H].
  - inversion H; subst. destruct (IH c) as [A B]; [lia|assumption|].
    subst. split; reflexivity.
Qed.

(** X7.  As long as the counter stays below 10000, an invoice number
    determines the day and the counter value it was generated from: two
    calls of [generate_invoice_number] that return the same number were made
    on the same date text and from the same sequence value. *)
Theorem invoice_number_decodes :
  forall (today1 today2 : string) (d1 d2 r1 r2 : db) (n1 n2 : string),
    (0 <= invoice_number_seq d1 < 9999)%Z ->
    (0 <= invoice_number_seq d2 < 9999)%Z ->
    String.length today1 = String.length today2 ->
    generate_invoice_number today1 d1 = (Some n1, r1) ->
    generate_invoice_number today2 d2 = (Some n2, r2) ->
    n1 = n2 ->
    today1 = today2 /\ invoice_number_seq d1 = invoice_number_seq d2.
Proof.
  intros today1 today2 d1 d2 r1 r2 n1 n2 H1 H2 Hl G1 G2 E.
  unfold generate_invoice_number, nextval in G1, G2.
  destruct (_ <=? _)%Z in G1; [|discriminate].
  destruct (_ <=? _)%Z in G2; [|discriminate].
  inversion G1 as [[En1 Er1]]. inversion G2 as [[En2 Er2]]. clear G1 G2 Er1 Er2.
  rewrite <- En1, <- En2 in E. clear En1 En2.
  cbn [append] in E. injection E as E.
  apply append_inj_same_length in E; [|exact Hl]. destruct E as [Et E].
  injection E as E. split; [exact Et|].
  assert (O1 := ordinal_round_trip (invoice_number_seq d1 + 1) ltac:(lia)).
  assert (O2 := ordinal_round_trip (invoice_number_seq d2 + 1) ltac:(lia)).
  unfold ordinal_of in O1, O2. rewrite E in O1. rewrite O1 in O2.
  inversion O2. lia.
Qed.

(** ** Inserting invoices *)

Lemma NoDup_snoc_map {A B} (f : A -> B) (l : list A) (x : A) :
  NoDup (map f l) -> ~ In (f x) (map f l) -> NoDup (map f (l ++ [x])).
Proof. intros Hn Hx. rewrite map_app. simpl. apply NoDup_snoc; assumption. Qed.

Lemma invoice_row_ok_facts d row :
  invoice_row_ok d row = true ->
  0 <= subtotal row /\ 0 <= tax_amount row /\ 0 <= total_amount row
  /\ ~ In (inv_id row) (map inv_id (invoices d))
  /\ ~ In (invoice_number row) (map invoice_number (invoices d)).
Proof.
  unfold invoice_row_ok. intros H.
  repeat (apply andb_true_iff in H; destruct H as [H ?]).
  repeat match goal with Hq : Qle_bool _ _ = true |- _ => apply Qle_bool_iff in Hq end.
  repeat split; try assumption.
  - intros Hin. apply in_map_iff in Hin. destruct Hin as [x [Ex Hx]].
    rewrite (invoice_exists_In (inv_id row) d x Hx Ex) in *. discriminate.
  - intros Hin. apply in_map_iff in Hin. destruct Hin as [x [Ex Hx]].
    match goal with Hn : negb (existsb _ _) = true |- _ =>
      apply negb_true_iff in Hn;
      assert (Ht : existsb (fun x0 => String.eqb (invoice_number x0) (invoice_number row))
                     (invoices d) = true)
        by (apply existsb_exists; exists x; split; [exact Hx|apply String.eqb_eq, Ex]);
      simpl in Hn; congruence
    end.
Qed.

(** X8.  An insert into invoices, accepted or refused, keeps the stored
    invoice numbers and the stored keys pairwise distinct; a refused insert
    stores nothing; an accepted one appends exactly the new row.  The
    sequence moves by one exactly when the number had to be generated, also
    when the insert is then refused, and stays put when the caller sent a
    number. *)
Theorem invoice_insert_keeps_keys :
  forall today id number sub tx tot st (d d1 : db) (r : option invoice),
    insert_invoice today id number sub tx tot st d = (d1, r) ->
    (NoDup (map invoice_number (invoices d)) ->
     NoDup (map invoice_number (invoices d1)))
    /\ (NoDup (map inv_id (invoices d)) -> NoDup (map inv_id (invoices d1)))
    /\ (r = None -> invoices d1 = invoices d)
    /\ (forall row, r = Some row ->
          invoices d1 = invoices d ++ [row]
          /\ inv_id row = id /\ inv_status row = st
          /\ (forall n, number = Some n -> invoice_number row = n))
    /\ (number = None -> invoice_number_seq d1 = (invoice_number_seq d + 1)%Z)
    /\ (number <> None -> invoice_number_seq d1 = invoice_number_seq d)
    /\ invoice_items d1 = invoice_items d /\ payments d1 = payments d.
Proof.
  intros today id number sub tx tot st d d1 r H.
  unfold insert_invoice, set_invoice_number in H.
  assert (Hgen : forall d0 num,
             (match number with
              | Some n => (Some n, d)
              | None => generate_invoice_number today d
              end) = (num, d0) ->
             invoices d0 = invoices d /\ invoice_items d0 = invoice_items d
             /\ payments d0 = payments d
             /\ (number = None -> invoice_number_seq d0 = (invoice_number_seq d + 1)%Z)
             /\ (number <> None -> invoice_number_seq d0 = invoice_number_seq d)
             /\ (forall n, number = Some n -> num = Some n)).
  { intros d0 num E. destruct number as [n|].
    - inversion E; subst. repeat split; try congruence.
    - apply generate_invoice_number_frame in E. subst d0.
      repeat split; try congruence. }
  destruct (match number with
            | Some n => (Some n, d)
            | None => generate_invoice_number today d
            end) as [num d0] eqn:Eg.
  destruct (Hgen d0 num eq_refl) as [Ei [Et [Ep [Es1 [Es2 En]]]]].
  destruct num as [n|].
  - destruct (invoice_row_ok d0 (mk_invoice id n sub tx tot st)) eqn:Eok;
      inversion H; subst; clear H.
    + destruct (invoice_row_ok_facts _ _ Eok) as [_ [_ [_ [Hid Hnum]]]].
      rewrite Ei in Hid, Hnum. cbn [invoices with_invoices]. rewrite Ei.
      split; [intros Hn; apply NoDup_snoc_map; assumption|].
      split; [intros Hn; apply NoDup_snoc_map; assumption|].
      split; [discriminate|].
      split; [intros row E; inversion E; subst; repeat split;
              intros m Em; specialize (En m Em); simpl; congruence|].
      repeat split; assumption.
    + rewrite Ei. split; [auto|]. split; [auto|]. split; [reflexivity|].
      split; [discriminate|]. repeat split; assumption.
  - inversion H; subst; clear H. rewrite Ei.
    split; [auto|]. split; [auto|]. split; [reflexivity|].
    split; [discriminate|]. repeat split; assumption.
Qed.

(** ** The status trigger, once more *)

Lemma set_status_rows k s d :
  invoices (update_invoices_where_id (Some k) (set_status s) d)
  = map (fun inv => if Nat.eqb (inv_id inv) k then set_status s inv else inv) (invoices d).
Proof. reflexivity. Qed.

Lemma select_total_after_status k' k s d :
  select_total_amount (Some k') (update_invoices_where_id (Some k) (set_status s) d)
  = select_total_amount (Some k') d.
Proof.
  unfold select_total_amount. rewrite set_status_rows.
  induction (invoices d) as [|inv l IH]; [reflexivity|]. cbn [map filter].
  assert (E : sql_eq (Some (inv_id (if Nat.eqb (inv_id inv) k then set_status s inv else inv)))
                (Some k') = sql_eq (Some (inv_id inv)) (Some k')).
  { destruct (Nat.eqb (inv_id inv) k); reflexivity. }
  rewrite E. destruct (sql_eq (Some (inv_id inv)) (Some k')).
  - destruct (Nat.eqb (inv_id inv) k); reflexivity.
  - exact IH.
Qed.

Lemma update_invoice_status_decided NEW d :
  update_invoice_status NEW d
  = match decided NEW d with
    | Some (k, Some s) => update_invoices_where_id (Some k) (set_status s) d
    | _ => d
    end.
Proof.
  unfold update_invoice_status, decided, total_paid_of.
  destruct (pay_invoice_id NEW) as [k|]; [|reflexivity]. cbv zeta.
  destruct (sql_ge _ _); [reflexivity|]. destruct (Qlt_bool _ _); reflexivity.
Qed.

(** X9.  The status trigger writes nothing but the status column of the
    invoice the payment names, and only 'paid' or 'partially_paid': items,
    payments and sources, every other invoice row, and the number and the
    three amounts of every invoice are as they were.  Firing it again with
    nothing changed in between changes nothing more. *)
Theorem payment_trigger_writes_status_only :
  forall (NEW : payment) (d : db),
    invoice_items (update_invoice_status NEW d) = invoice_items d
    /\ payments (update_invoice_status NEW d) = payments d
    /\ utilities (update_invoice_status NEW d) = utilities d
    /\ deposits (update_invoice_status NEW d) = deposits d
    /\ invoice_number_seq (update_invoice_status NEW d) = invoice_number_seq d
    /\ Forall2
         (fun inv' inv =>
            inv_id inv' = inv_id inv /\ invoice_number inv' = invoice_number inv
            /\ subtotal inv' = subtotal inv /\ tax_amount inv' = tax_amount inv
            /\ total_amount inv' = total_amount inv
            /\ (pay_invoice_id NEW <> Some (inv_id inv) -> inv' = inv)
            /\ (inv_status inv' = inv_status inv \/ inv_status inv' = paid
                \/ inv_status inv' = partially_paid))
         (invoices (update_invoice_status NEW d)) (invoices d)
    /\ update_invoice_status NEW (update_invoice_status NEW d)
       = update_invoice_status NEW d.
Proof.
  intros NEW d. rewrite update_invoice_status_decided.
  assert (Same : Forall2
            (fun inv' inv =>
               inv_id inv' = inv_id inv /\ invoice_number inv' = invoice_number inv
               /\ subtotal inv' = subtotal inv /\ tax_amount inv' = tax_amount inv
               /\ total_amount inv' = total_amount inv
               /\ (pay_invoice_id NEW <> Some (inv_id inv) -> inv' = inv)
               /\ (inv_status inv' = inv_status inv \/ inv_status inv' = paid
                   \/ inv_status inv' = partially_paid))
            (invoices d) (invoices d)).
  { rewrite <- (map_id (invoices d)) at 1. apply Forall2_map_same.
    intros inv _. repeat split. left. reflexivity. }
  destruct (decided NEW d) as [[k [s|]]|] eqn:Ed;
    try (repeat split; try exact Same; rewrite update_invoice_status_decided, Ed;
         reflexivity).
  repeat split.
  - rewrite set_status_rows. apply Forall2_map_same. intros inv _.
    unfold decided in Ed. destruct (pay_invoice_id NEW) as [k0|]; [|discriminate].
    inversion Ed; subst k0.
    destruct (Nat.eqb (inv_id inv) k) eqn:Ek.
    + cbn [inv_id invoice_number subtotal tax_amount total_amount inv_status set_status].
      repeat split.
      * intros Hne. apply Nat.eqb_eq in Ek. congruence.
      * destruct (sql_ge _ _) in H1; [inversion H1; right; left; reflexivity|].
        destruct (Qlt_bool _ _) in H1; [inversion H1; right; right; reflexivity|discriminate].
    + repeat split. left. reflexivity.
  - rewrite update_invoice_status_decided.
    assert (Ed' : decided NEW (update_invoices_where_id (Some k) (set_status s) d)
                  = decided NEW d).
    { unfold decided, total_paid_of. destruct (pay_invoice_id NEW); [|reflexivity].
      rewrite select_total_after_status. reflexivity. }
    rewrite Ed', Ed. apply db_ext; try reflexivity.
    rewrite !set_status_rows, map_map. apply map_ext. intros inv.
    destruct (Nat.eqb (inv_id inv) k) eqn:Ek; cbn [inv_id set_status]; rewrite Ek;
      reflexivity.
Qed.

Lemma total_paid_grows k p d :
  0 < pay_amount p ->
  total_paid_of k d <= total_paid_of k (with_payments (fun t => t ++ [p]) d).
Proof.
  intros Hp. unfold total_paid_of. rewrite !SUM_total_of.
  cbn [payments with_payments]. unfold confirmed_amounts.
  rewrite filter_app, map_app, total_of_app. cbn [filter].
  destruct (sql_eq (pay_invoice_id p) (Some k) && is_confirmed p); simpl; lra.
Qed.

Lemma status_is_other k k' s s' d :
  k' <> k -> status_is k s d ->
  status_is k s (update_invoices_where_id (Some k') (set_status s') d).
Proof.
  intros Hne H inv Hin Hid. rewrite set_status_rows in Hin. apply in_map_iff in Hin.
  destruct Hin as [inv0 [E Hin0]]. destruct (Nat.eqb (inv_id inv0) k') eqn:Ek.
  - apply Nat.eqb_eq in Ek. subst inv. simpl in Hid. congruence.
  - subst inv. apply H; assumption.
Qed.

Lemma payment_row_ok_amount d p : payment_row_ok d p = true -> 0 < pay_amount p.
Proof.
  unfold payment_row_ok. intros H.
  apply andb_true_iff in H. destruct H as [H _].
  apply andb_true_iff in H. destruct H as [H _].
  apply Qlt_bool_iff. exact H.
Qed.

Lemma insert_payment_keeps_paid :
  forall (d d' : db) (p : payment) (k : uuid) (tot : Q),
    select_total_amount (Some k) d = Some tot ->
    tot <= total_paid_of k d ->
    status_is k paid d ->
    insert_payment p d = Some d' ->
    select_total_amount (Some k) d' = Some tot
    /\ tot <= total_paid_of k d'
    /\ status_is k paid d'.
Proof.
  intros d d' p k tot Et Hcov Hpaid H. unfold insert_payment in H.
  destruct (payment_row_ok d p) eqn:Eok; [|discriminate].
  inversion H; subst d'; clear H.
  pose proof (payment_row_ok_amount d p Eok) as Hp.
  set (d1 := with_payments (fun t => t ++ [p]) d).
  assert (Hcov1 : tot <= total_paid_of k d1).
  { pose proof (total_paid_grows k p d Hp). fold d1 in H. lra. }
  assert (Et1 : select_total_amount (Some k) d1 = Some tot) by exact Et.
  assert (Hpaid1 : status_is k paid d1) by exact Hpaid.
  assert (Etp : total_paid_of k (update_invoice_status p d1) = total_paid_of k d1).
  { unfold total_paid_of. rewrite update_invoice_status_payments. reflexivity. }
  rewrite Etp. rewrite update_invoice_status_decided.
  destruct (decided p d1) as [[k' [s|]]|] eqn:Ed; try (repeat split; assumption).
  rewrite select_total_after_status. split; [exact Et1|]. split; [exact Hcov1|].
  unfold decided in Ed. destruct (pay_invoice_id p) as [k0|]; [|discriminate].
  inversion Ed; subst k0. destruct (Nat.eq_dec k' k) as [E|Hne].
  - subst k'. rewrite Et1 in H1. cbn [sql_ge] in H1.
    assert (Hge : Qle_bool tot (total_paid_of k d1) = true) by (apply Qle_bool_iff; exact Hcov1).
    rewrite Hge in H1. inversion H1. apply status_is_after_update.
  - apply status_is_other; assumption.
Qed.

(** X10.  An invoice that reads 'paid' with its total covered by the
    confirmed payments keeps its total, stays covered and stays 'paid' under
    every further run of accepted payments, against this or any other
    invoice or against none. *)
Theorem paid_stays_paid :
  forall (ps : list payment) (d d' : db) (k : uuid) (tot : Q),
    select_total_amount (Some k) d = Some tot ->
    tot <= total_paid_of k d ->
    status_is k paid d ->
    insert_payments ps d = Some d' ->
    select_total_amount (Some k) d' = Some tot
    /\ tot <= total_paid_of k d'
    /\ status_is k paid d'.
Proof.
  induction ps as [|p rest IH]; intros d d' k tot Et Hcov Hpaid H; simpl in H.
  - inversion H; subst. repeat split; assumption.
  - destruct (insert_payment p d) as [d1|] eqn:E; [|discriminate].
    destruct (insert_payment_keeps_paid d d1 p k tot Et Hcov Hpaid E) as [A [B C]].
    apply (IH d1 d' k tot A B C H).
Qed.

(** ** Deleting an invoice *)

Lemma delete_invoice_parts k d :
  invoice_exists k d = true ->
  invoices (delete_invoice k d)
  = filter (fun inv => negb (Nat.eqb (inv_id inv) k)) (invoices d)
  /\ invoice_items (delete_invoice k d)
     = filter (fun it => negb (of_invoice k it)) (invoice_items d)
  /\ payments (delete_invoice k d) = map (detach_payment k) (payments d)
  /\ utilities (delete_invoice k d) = utilities d
  /\ deposits (delete_invoice k d) = deposits d
  /\ invoice_number_seq (delete_invoice k d) = invoice_number_seq d.
Proof.
  intros Hex. unfold delete_invoice. rewrite Hex. cbv zeta.
  rewrite fire_totals_delete.
  set (d1 := with_invoices (filter (fun inv => negb (Nat.eqb (inv_id inv) k))) d).
  set (d2 := with_items (filter (fun it => negb (of_invoice k it))) d1).
  set (keys := map item_invoice_id (filter (of_invoice k) (invoice_items d1))).
  destruct (recompute_keys_frame keys d2) as [A [B [C D]]].
  cbn [invoices invoice_items payments utilities deposits invoice_number_seq with_payments].
  rewrite recompute_keys_items, recompute_keys_rows, A, B, C, D.
  repeat split.
  unfold recomputed_rows. cbn [invoices d2 d1 with_items with_invoices].
  rewrite <- (map_id (filter _ (invoices d))) at 2. apply map_ext_in.
  intros inv Hin. apply filter_In in Hin. destruct Hin as [_ Hne].
  destruct (existsb (sql_eq (Some (inv_id inv))) keys) eqn:Ex; [|reflexivity].
  apply existsb_sql_eq in Ex. unfold keys in Ex. apply in_map_iff in Ex.
  destruct Ex as [it [Eit Hit]]. apply filter_In in Hit. destruct Hit as [_ Hit].
  unfold of_invoice in Hit. apply sql_eq_true in Hit. rewrite Hit in Eit.
  inversion Eit. subst k. rewrite Nat.eqb_refl in Hne. discriminate.
Qed.

(** X11.  [handleDelete], once confirmed and let through, removes the
    invoice and leaves no orphan: no item and no payment names the invoice
    afterwards; the items of the invoice are gone and its payments are kept
    with their amounts but without invoice; every other invoice, item and
    payment is untouched, and the table constraints still hold.  Not
    confirmed, turned down, or on a key no invoice carries, it changes
    nothing. *)
Theorem delete_invoice_leaves_no_orphan :
  forall (k : uuid) (d : db),
    (forall confirmed fails,
       confirmed = false \/ fails = true ->
       InvoiceList.handleDelete confirmed fails k d = d)
    /\ (invoice_exists k d = false -> InvoiceList.handleDelete true false k d = d)
    /\ (invoice_exists k d = true ->
        invoice_exists k (InvoiceList.handleDelete true false k d) = false
        /\ (forall it, In it (invoice_items (InvoiceList.handleDelete true false k d)) ->
                       item_invoice_id it <> Some k)
        /\ (forall p, In p (payments (InvoiceList.handleDelete true false k d)) ->
                      pay_invoice_id p <> Some k)
        /\ (forall inv, In inv (invoices (InvoiceList.handleDelete true false k d))
                        <-> In inv (invoices d) /\ inv_id inv <> k)
        /\ (forall it, In it (invoice_items (InvoiceList.handleDelete true false k d))
                       <-> In it (invoice_items d) /\ item_invoice_id it <> Some k)
        /\ map pay_id (payments (InvoiceList.handleDelete true false k d))
           = map pay_id (payments d)
        /\ map pay_amount (payments (InvoiceList.handleDelete true false k d))
           = map pay_amount (payments d)
        /\ (forall p, In p (payments d) -> pay_invoice_id p <> Some k ->
                      In p (payments (InvoiceList.handleDelete true false k d))))
    /\ (db_consistent d -> db_consistent (InvoiceList.handleDelete true false k d)).
Proof.
  intros k d.
  change (InvoiceList.handleDelete true false k d) with (delete_invoice k d).
  split; [|split; [|split]].
  - intros c f [E|E]; subst; unfold InvoiceList.handleDelete; [reflexivity|].
    destruct c; reflexivity.
  - intros H. unfold delete_invoice. rewrite H. reflexivity.
  - intros Hex. destruct (delete_invoice_parts k d Hex) as [Ei [Et [Ep _]]].
    assert (Hitem : forall it, of_invoice k it = false <-> item_invoice_id it <> Some k).
    { intros it. unfold of_invoice. split.
      - intros H E. rewrite E, sql_eq_refl in H. discriminate.
      - intros H. destruct (sql_eq _ _) eqn:E; [|reflexivity].
        apply sql_eq_true in E. contradiction. }
    split; [|split; [|split; [|split; [|split; [|split; [|split]]]]]].
    + unfold invoice_exists. rewrite Ei.
      destruct (existsb _ _) eqn:E; [|reflexivity].
      apply existsb_exists in E. destruct E as [inv [Hin E]].
      apply filter_In in Hin. destruct Hin as [_ Hne]. rewrite E in Hne. discriminate.
    + intros it Hin. rewrite Et in Hin. apply filter_In in Hin.
      apply Hitem. apply negb_true_iff. apply Hin.
    + intros p Hin. rewrite Ep in Hin. apply in_map_iff in Hin.
      destruct Hin as [p0 [E Hp0]]. unfold detach_payment in E.
      destruct (sql_eq (pay_invoice_id p0) (Some k)) eqn:Es; subst p.
      * discriminate.
      * intros E. rewrite E, sql_eq_refl in Es. discriminate.
    + intros inv. rewrite Ei, filter_In, negb_true_iff, Nat.eqb_neq. reflexivity.
    + intros it. rewrite Et, filter_In, negb_true_iff, Hitem. reflexivity.
    + rewrite Ep, map_map. apply map_ext. intros p. unfold detach_payment.
      destruct (sql_eq _ _); reflexivity.
    + rewrite Ep, map_map. apply map_ext. intros p. unfold detach_payment.
      destruct (sql_eq _ _); reflexivity.
    + intros p Hin Hne. rewrite Ep. apply in_map_iff. exists p. split; [|exact Hin].
      unfold detach_payment. destruct (sql_eq _ _) eqn:Es; [|reflexivity].
      apply sql_eq_true in Es. contradiction.
  - intros Hc. destruct (invoice_exists k d) eqn:Hex.
    + destruct (delete_invoice_parts k d Hex) as [Ei [Et _]].
      destruct Hc as [[Hci Hct] [Hn Hf]]. split; [split|split].
      * intros inv Hin. rewrite Ei in Hin. apply filter_In in Hin. apply Hci, Hin.
      * intros it Hin. rewrite Et in Hin. apply filter_In in Hin. apply Hct, Hin.
      * rewrite Et. apply NoDup_map_filter, Hn.
      * intros it j Hin Hj. rewrite Et in Hin. apply filter_In in Hin.
        destruct Hin as [Hin Hne]. pose proof (Hf it j Hin Hj) as Hexj.
        unfold invoice_exists in *. rewrite Ei. apply existsb_exists in Hexj.
        destruct Hexj as [inv [Hinv Ej]]. apply existsb_exists. exists inv.
        split; [|exact Ej]. apply filter_In. split; [exact Hinv|].
        apply Nat.eqb_eq in Ej. apply negb_true_iff, Nat.eqb_neq. intros E.
        unfold of_invoice in Hne. rewrite Hj in Hne. rewrite <- Ej, E in Hne.
        rewrite sql_eq_refl in Hne. discriminate.
    + unfold delete_invoice. rewrite Hex. exact Hc.
Qed.

(** ** From draft to payable *)

Lemma last_row_status (l' l : list invoice) (i : uuid) (s : invoice_status) :
  map inv_id l' = map inv_id l ++ [i] ->
  map inv_status l' = map inv_status l ++ [s] ->
  ~ In i (map inv_id l) ->
  forall row, In row l' -> inv_id row = i -> inv_status row = s.
Proof.
  revert l'. induction l as [|x l IH]; intros l' Hid Hst Hfresh row Hin Hrow.
  - destruct l' as [|y [|z l']]; simpl in *; try discriminate.
    destruct Hin as [E|[]]. subst y. inversion Hst. reflexivity.
  - destruct l' as [|y l']; simpl in *; [discriminate|].
    inversion Hid. inversion Hst. destruct Hin as [E|Hin].
    + subst y. exfalso. apply Hfresh. left. congruence.
    + apply (IH l'); try assumption. intros Hi. apply Hfresh. right. exact Hi.
Qed.

(** X12.  The payment form lists only invoices that read 'sent',
    'partially_paid' or 'overdue': an invoice just created by the invoice
    form, a draft, is not offered for payment; once [handleSendInvoice] went
    through it reads 'sent' and is offered to its tenant, with its items and
    every total as they were. *)
Theorem created_invoice_payable_once_sent :
  forall (tenant_id_of : uuid -> uuid) (by_due_date : list invoice -> list invoice)
         w s d d' inv unit tenant prev,
    (forall l x, In x (by_due_date l) <-> In x l) ->
    CreateInvoiceForm.handleSubmit w s d = (d', CreateInvoiceForm.Created inv) ->
    tenant_id_of (inv_id inv) = tenant ->
    (forall row,
       In row (MakePaymentForm.fetchInvoices tenant_id_of by_due_date
                 (Some unit) (Some tenant) false prev d') ->
       inv_id row <> inv_id inv)
    /\ (forall row,
          In row (invoices (ViewInvoiceModal.handleSendInvoice (Some inv) false
                              (inv_id inv) d')) ->
          inv_id row = inv_id inv ->
          inv_status row = sent
          /\ In row (MakePaymentForm.fetchInvoices tenant_id_of by_due_date
                       (Some unit) (Some tenant) false prev
                       (ViewInvoiceModal.handleSendInvoice (Some inv) false
                          (inv_id inv) d')))
    /\ In (inv_id inv)
          (map inv_id (invoices (ViewInvoiceModal.handleSendInvoice (Some inv) false
                                   (inv_id inv) d')))
    /\ invoice_items (ViewInvoiceModal.handleSendInvoice (Some inv) false (inv_id inv) d')
       = invoice_items d'
    /\ map total_amount
         (invoices (ViewInvoiceModal.handleSendInvoice (Some inv) false (inv_id inv) d'))
       = map total_amount (invoices d').
Proof.
  intros tenant_id_of by_due_date w s d d' inv unit tenant prev Hperm H Ht.
  destruct (created_rows w s d d' inv H) as [_ [_ [_ [_ [Hfresh [_ [Eids [Est _]]]]]]]].
  assert (Hnew : ~ In (inv_id inv) (map inv_id (invoices d))).
  { intros Hin. apply in_map_iff in Hin. destruct Hin as [x [Ex Hx]].
    rewrite (invoice_exists_In _ d x Hx Ex) in Hfresh. discriminate. }
  pose proof (last_row_status _ _ _ _ Eids Est Hnew) as Hdraft.
  unfold MakePaymentForm.fetchInvoices, ViewInvoiceModal.handleSendInvoice.
  split; [|split; [|split; [|split]]].
  - intros row Hin Hid. apply (proj1 (Hperm _ _)) in Hin. apply filter_In in Hin.
    destruct Hin as [Hin Hp]. apply andb_true_iff in Hp. destruct Hp as [_ Hp].
    unfold MakePaymentForm.payable in Hp. rewrite (Hdraft row Hin Hid) in Hp.
    discriminate.
  - intros row Hin Hid.
    assert (Hs : inv_status row = sent).
    { simpl in Hin. apply in_map_iff in Hin. destruct Hin as [x [Ex Hx]].
      destruct (Nat.eqb (inv_id x) (inv_id inv)) eqn:E; subst row; [reflexivity|].
      rewrite Hid, Nat.eqb_refl in E. discriminate. }
    split; [exact Hs|]. apply (proj2 (Hperm _ _)). apply filter_In. split; [exact Hin|].
    rewrite Hid, Ht, Nat.eqb_refl. unfold MakePaymentForm.payable. rewrite Hs.
    reflexivity.
  - simpl. rewrite map_map.
    rewrite (map_ext _ inv_id); [rewrite Eids; apply in_or_app; right; left; reflexivity|].
    intros x. destruct (Nat.eqb (inv_id x) (inv_id inv)); reflexivity.
  - reflexivity.
  - simpl. rewrite map_map. apply map_ext.
    intros x. destruct (Nat.eqb (inv_id x) (inv_id inv)); reflexivity.
Qed.

(** ** Selecting invoices to pay *)

(** X13.  [handleInvoiceSelection] toggles one invoice and nothing else: the
    invoice is selected afterwards exactly when it was not before, every
    other invoice keeps its state, a selection without repetition stays
    without repetition, and toggling twice gives back the same selection. *)
Theorem invoice_selection_toggles :
  forall (id : uuid) (prev : list uuid),
    (In id (MakePaymentForm.handleInvoiceSelection id prev) <-> ~ In id prev)
    /\ (forall x, x <> id ->
          (In x (MakePaymentForm.handleInvoiceSelection id prev) <-> In x prev))
    /\ (NoDup prev -> NoDup (MakePaymentForm.handleInvoiceSelection id prev))
    /\ (forall x,
          In x (MakePaymentForm.handleInvoiceSelection id
                  (MakePaymentForm.handleInvoiceSelection id prev))
          <-> In x prev).
Proof.
  assert (Hmem : forall id prev, existsb (Nat.eqb id) prev = true <-> In id prev).
  { intros id prev. rewrite existsb_exists. split.
    - intros [x [Hx E]]. apply Nat.eqb_eq in E. subst. exact Hx.
    - intros H. exists id. split; [exact H|apply Nat.eqb_refl]. }
  assert (Hin : forall id prev,
             In id (MakePaymentForm.handleInvoiceSelection id prev) <-> ~ In id prev).
  { intros id prev. unfold MakePaymentForm.handleInvoiceSelection. cbv zeta.
    destruct (existsb (Nat.eqb id) prev) eqn:E.
    - apply Hmem in E. rewrite filter_In, Nat.eqb_refl. simpl. split; [intros [_ F]|]; try discriminate; tauto.
    - split; [intros _ H; apply Hmem in H; congruence|].
      intros _. apply in_or_app. right. left. reflexivity. }
  assert (Hother : forall id prev x, x <> id ->
             (In x (MakePaymentForm.handleInvoiceSelection id prev) <-> In x prev)).
  { intros id prev x Hne. unfold MakePaymentForm.handleInvoiceSelection. cbv zeta.
    destruct (existsb (Nat.eqb id) prev).
    - rewrite filter_In, negb_true_iff, Nat.eqb_neq. tauto.
    - rewrite in_app_iff. simpl. split; [intros [H|[H|[]]]; [exact H|congruence]|tauto]. }
  intros id prev. split; [apply Hin|]. split; [apply Hother|]. split.
  - intros Hn. unfold MakePaymentForm.handleInvoiceSelection. cbv zeta.
    destruct (existsb (Nat.eqb id) prev) eqn:E.
    + apply NoDup_filter, Hn.
    + apply NoDup_snoc; [exact Hn|]. intros H. apply Hmem in H. congruence.
  - intros x. destruct (Nat.eq_dec x id) as [E|Hne].
    + subst x. rewrite Hin, Hin. destruct (in_dec Nat.eq_dec id prev); tauto.
    + rewrite Hother, Hother by exact Hne. reflexivity.
Qed.

(** ** Submitting payments *)

Lemma insert_payment_parts p d d1 :
  insert_payment p d = Some d1 ->
  0 < pay_amount p
  /\ d1 = update_invoice_status p (with_payments (fun t => t ++ [p]) d)
  /\ payments d1 = payments d ++ [p]
  /\ invoice_items d1 = invoice_items d
  /\ (forall K, select_total_amount (Some K) d1 = select_total_amount (Some K) d).
Proof.
  unfold insert_payment. destruct (payment_row_ok d p) eqn:Eok; [|discriminate].
  intros H. inversion H; subst d1; clear H.
  split; [apply (payment_row_ok_amount d p Eok)|]. split; [reflexivity|].
  split; [rewrite update_invoice_status_payments; reflexivity|].
  rewrite update_invoice_status_decided.
  destruct (decided p _) as [[k [s|]]|]; split; try reflexivity.
  intros K. exact (select_total_after_status K k s _).
Qed.



Section PayEach.
Variable w : MakePaymentForm.world.
Variable s : MakePaymentForm.state.



End PayEach.


Lemma pay_each_records w s ids : forall n d d',
  MakePaymentForm.pay_each w s n ids d = (d', MakePaymentForm.Done) ->
  exists news,
    payments d' = payments d ++ news
    /\ map pay_amount news = due s ids
    /\ (forall p, In p news ->
          0 < pay_amount p
          /\ exists k inv,
               In k ids /\ MakePaymentForm.find_invoice s k = Some inv
               /\ pay_invoice_id p = Some k
               /\ MakePaymentForm.payment_amount_for s inv = Some (pay_amount p))
    /\ invoice_items d' = invoice_items d.
Proof.
  induction ids as [|k0 rest IH]; intros n d d' H; simpl in H.
  - inversion H; subst. exists []. rewrite app_nil_r.
    split; [reflexivity|]. split; [reflexivity|]. split; [intros p []|reflexivity].
  - cbn [due flat_map]. fold (due s rest).
    destruct (MakePaymentForm.find_invoice s k0) as [inv0|] eqn:Ef.
    + destruct (MakePaymentForm.payment_amount_for s inv0) as [a|] eqn:Ea; [|discriminate].
      destruct (MakePaymentForm.payment_request_fails w n); [discriminate|].
      destruct (insert_payment _ d) as [d1|] eqn:E; [|discriminate].
      destruct (insert_payment_parts _ d d1 E) as [Hp [_ [Ep [Ei _]]]].
      destruct (IH _ d1 d' H) as [news [En [Ed [Hall Eit]]]].
      exists (mk_payment (MakePaymentForm.new_payment_id w n) (Some k0) a confirmed :: news).
      split; [rewrite En, Ep, <- app_assoc; reflexivity|].
      split; [simpl; rewrite Ed; reflexivity|]. split; [|congruence].
      intros p [Ep0|Hin].
      * subst p. split; [exact Hp|]. exists k0, inv0. repeat split; try assumption.
        left. reflexivity.
      * destruct (Hall p Hin) as [Hpos [k [inv [A [B [C D]]]]]].
        split; [exact Hpos|]. exists k, inv. repeat split; try assumption. right. exact A.
    + destruct (IH _ d d' H) as [news [En [Ed [Hall Eit]]]].
      exists news. split; [exact En|]. split; [exact Ed|]. split; [|exact Eit].
      intros p Hin. destruct (Hall p Hin) as [Hpos [k [inv [A [B [C D]]]]]].
      split; [exact Hpos|]. exists k, inv. repeat split; try assumption. right. exact A.
Qed.




(** ** A failed payment submission *)

Lemma pay_each_failed_prefix w s ids : forall n d d',
  MakePaymentForm.pay_each w s n ids d = (d', MakePaymentForm.Failed) ->
  exists done rest,
    ids = done ++ rest /\ rest <> []
    /\ MakePaymentForm.pay_each w s n done d = (d', MakePaymentForm.Done).
Proof.
  induction ids as [|k r IH]; intros n d d' H; [discriminate H|].
  assert (Stop : d' = d ->
            exists done rest,
              k :: r = done ++ rest /\ rest <> []
              /\ MakePaymentForm.pay_each w s n done d = (d', MakePaymentForm.Done)).
  { intros E. subst d'. exists [], (k :: r). repeat split. discriminate. }
  cbn [MakePaymentForm.pay_each] in H.
  destruct (MakePaymentForm.find_invoice s k) as [inv|] eqn:Ef.
  - destruct (MakePaymentForm.payment_amount_for s inv) as [a|] eqn:Ea;
      [|inversion H; subst; auto].
    destruct (MakePaymentForm.payment_request_fails w n) eqn:Er; [inversion H; subst; auto|].
    destruct (insert_payment _ d) as [d1|] eqn:Ei; [|inversion H; subst; auto].
    destruct (IH _ _ _ H) as [done [rest [E [Hne Hd]]]].
    exists (k :: done), rest. split; [rewrite E; reflexivity|]. split; [exact Hne|].
    cbn [MakePaymentForm.pay_each]. rewrite Ef, Ea, Er, Ei. exact Hd.
  - destruct (IH _ _ _ H) as [done [rest [E [Hne Hd]]]].
    exists (k :: done), rest. split; [rewrite E; reflexivity|]. split; [exact Hne|].
    cbn [MakePaymentForm.pay_each]. rewrite Ef. exact Hd.
Qed.

(** X19.  A failed payment submission is not rolled back: it leaves the
    database as a successful submission of the invoices before the failing
    one would, their payments stored with the amounts due and no item
    touched.  Failures before the loop (no user, upload refused, amount
    below the total in 'full' mode) store nothing. *)
Theorem failed_payment_submission_keeps_prefix :
  forall w s d d',
    MakePaymentForm.handleSubmit w s d = (d', MakePaymentForm.Failed) ->
    exists done rest news,
      MakePaymentForm.selectedInvoices s = done ++ rest
      /\ MakePaymentForm.pay_each w s 0 done d = (d', MakePaymentForm.Done)
      /\ payments d' = payments d ++ news
      /\ map pay_amount news = due s done
      /\ invoice_items d' = invoice_items d
      /\ (MakePaymentForm.user w = None
          \/ (MakePaymentForm.file s && MakePaymentForm.upload_fails w = true)
          \/ (MakePaymentForm.is_full (MakePaymentForm.paymentType s)
              && MakePaymentForm.below (MakePaymentForm.amount s)
                   (MakePaymentForm.totalInvoiceAmount s) = true) ->
          d' = d).
Proof.
  intros w s d d' H. unfold MakePaymentForm.handleSubmit in H.
  assert (Early : d' = d ->
    exists done rest news,
      MakePaymentForm.selectedInvoices s = done ++ rest
      /\ MakePaymentForm.pay_each w s 0 done d = (d', MakePaymentForm.Done)
      /\ payments d' = payments d ++ news
      /\ map pay_amount news = due s done
      /\ invoice_items d' = invoice_items d
      /\ (MakePaymentForm.user w = None
          \/ (MakePaymentForm.file s && MakePaymentForm.upload_fails w = true)
          \/ (MakePaymentForm.is_full (MakePaymentForm.paymentType s)
              && MakePaymentForm.below (MakePaymentForm.amount s)
                   (MakePaymentForm.totalInvoiceAmount s) = true) ->
          d' = d)).
  { intros E. subst d'. exists [], (MakePaymentForm.selectedInvoices s), [].
    rewrite app_nil_r. repeat split. }
  destruct (MakePaymentForm.user w) as [u|]; [|inversion H; subst; auto].
  destruct (MakePaymentForm.file s && MakePaymentForm.upload_fails w);
    [inversion H; subst; auto|].
  destruct (MakePaymentForm.is_full (MakePaymentForm.paymentType s)
            && MakePaymentForm.below (MakePaymentForm.amount s)
                 (MakePaymentForm.totalInvoiceAmount s)); [inversion H; subst; auto|].
  destruct (pay_each_failed_prefix w s _ _ _ _ H) as [done [rest [E [_ Hd]]]].
  destruct (pay_each_records w s done _ _ _ Hd) as [news [En [Ed [_ Ei]]]].
  exists done, rest, news. repeat split; try assumption.
  intros [Hc|[Hc|Hc]]; discriminate Hc.
Qed.

(** ** Composing the draft invoice *)

Lemma filter_filter_same {A} (f : A -> bool) l : filter f (filter f l) = filter f l.
Proof.
  induction l as [|x r IH]; [reflexivity|]. simpl.
  destruct (f x) eqn:E; simpl; [rewrite E, IH; reflexivity|exact IH].
Qed.


Lemma filter_all {A} (f : A -> bool) l :
  (forall x, In x l -> f x = true) -> filter f l = l.
Proof.
  induction l as [|x r IH]; intros H; [reflexivity|]. simpl.
  rewrite (H x (or_introl eq_refl)), IH; [reflexivity|].
  intros y Hy. apply H. right. exact Hy.
Qed.

Lemma filter_none {A} (f : A -> bool) l :
  (forall x, In x l -> f x = false) -> filter f l = [].
Proof.
  induction l as [|x r IH]; intros H; [reflexivity|]. simpl.
  rewrite (H x (or_introl eq_refl)), IH; [reflexivity|].
  intros y Hy. apply H. right. exact Hy.
Qed.

Lemma utility_lines_only cols data :
  filter (CreateInvoiceForm.is_type utility) (map (utility_line cols) data)
  = map (utility_line cols) data
  /\ filter (fun item => negb (CreateInvoiceForm.is_type utility item))
            (map (utility_line cols) data) = []
  /\ filter (fun item => negb (CreateInvoiceForm.is_type deposit item))
            (map (utility_line cols) data) = map (utility_line cols) data.
Proof.
  repeat split; [apply filter_all|apply filter_none|apply filter_all];
    intros x Hx; apply in_map_iff in Hx; destruct Hx as [r [E _]]; subst x; reflexivity.
Qed.


Lemma filter_type_of_rest t l :
  filter (CreateInvoiceForm.is_type t)
         (filter (fun item => negb (CreateInvoiceForm.is_type t item)) l) = [].
Proof.
  apply filter_none. intros x Hx. apply filter_In in Hx. destruct Hx as [_ H].
  destruct (CreateInvoiceForm.is_type t x); [discriminate H|reflexivity].
Qed.

(** The items after [fetchUtilities], case by case. *)
Lemma fetchUtilities_items cols m y fails s d :
  CreateInvoiceForm.invoiceItems (fetchUtilities cols m y fails s d)
  = match CreateInvoiceForm.selectedUnitId s with
    | None => CreateInvoiceForm.invoiceItems s
    | Some unit =>
        if fails then CreateInvoiceForm.invoiceItems s
        else match saved_utilities cols unit m y d with
             | [] => CreateInvoiceForm.invoiceItems s
             | data =>
                 filter (fun item => negb (CreateInvoiceForm.is_type utility item))
                        (CreateInvoiceForm.invoiceItems s)
                 ++ map (utility_line cols) data
             end
    end.
Proof.
  unfold fetchUtilities. destruct (CreateInvoiceForm.selectedUnitId s); [|reflexivity].
  destruct fails; [reflexivity|].
  destruct (saved_utilities cols u m y d); reflexivity.
Qed.

Lemma fetchDeposits_items cols fails s d :
  CreateInvoiceForm.invoiceItems (fetchDeposits cols fails s d)
  = match CreateInvoiceForm.selectedUnitId s with
    | None => CreateInvoiceForm.invoiceItems s
    | Some unit =>
        if fails then CreateInvoiceForm.invoiceItems s
        else match saved_deposits cols unit d with
             | [] => CreateInvoiceForm.invoiceItems s
             | data =>
                 filter (fun item => negb (CreateInvoiceForm.is_type deposit item))
                        (CreateInvoiceForm.invoiceItems s)
                 ++ map (deposit_line cols) data
             end
    end.
Proof.
  unfold fetchDeposits. destruct (CreateInvoiceForm.selectedUnitId s); [|reflexivity].
  destruct fails; [reflexivity|].
  destruct (saved_deposits cols u d); reflexivity.
Qed.

Lemma set_invoiceItems_same s :
  set_invoiceItems (CreateInvoiceForm.invoiceItems s) s = s.
Proof. destruct s; reflexivity. Qed.

Lemma set_invoiceItems_twice a b s :
  set_invoiceItems a (set_invoiceItems b s) = set_invoiceItems a s.
Proof. reflexivity. Qed.

(** A fetcher writes [invoiceItems] and no other field. *)
Lemma fetchUtilities_fields cols m y fails s d :
  fetchUtilities cols m y fails s d
  = set_invoiceItems
      (CreateInvoiceForm.invoiceItems (fetchUtilities cols m y fails s d)) s.
Proof.
  unfold fetchUtilities. destruct (CreateInvoiceForm.selectedUnitId s);
    [|symmetry; apply set_invoiceItems_same].
  destruct fails; [symmetry; apply set_invoiceItems_same|].
  destruct (saved_utilities cols u m y d);
    [symmetry; apply set_invoiceItems_same|reflexivity].
Qed.


Lemma saved_utilities_In cols unit m y d r :
  In r (saved_utilities cols unit m y d)
  <-> In r (utilities d)
      /\ utility_unit_id cols (src_id r) = unit
      /\ utility_month cols (src_id r) = m
      /\ utility_year cols (src_id r) = y
      /\ src_status r = saved.
Proof.
  unfold saved_utilities. rewrite filter_In, !andb_true_iff, Nat.eqb_eq, !Z.eqb_eq.
  unfold is_saved. split.
  - intros [H [[[A B] C] D]]. repeat split; try assumption.
    destruct (src_status r); try discriminate D; reflexivity.
  - intros [H [A [B [C D]]]]. rewrite D. repeat split; assumption.
Qed.

Lemma saved_deposits_In cols unit d r :
  In r (saved_deposits cols unit d)
  <-> In r (deposits d)
      /\ deposit_unit_id cols (src_id r) = unit
      /\ src_status r = saved.
Proof.
  unfold saved_deposits. rewrite filter_In, !andb_true_iff, Nat.eqb_eq.
  unfold is_saved. split.
  - intros [H [A D]]. repeat split; try assumption.
    destruct (src_status r); try discriminate D; reflexivity.
  - intros [H [A D]]. rewrite D. repeat split; assumption.
Qed.

(** X16.  [fetchUtilities] writes the utility lines of the draft and nothing
    else: the other fields and the lines of other types stay, in order.
    When the query returns rows, the utility lines are exactly those rows,
    one line each, so every utility line has the amount and the key of a
    saved utility of the selected unit, month and year.  When it returns
    none (or fails, or no unit is selected) the draft stays as it is, stale
    utility lines included.  Asking twice gives the same draft as asking
    once. *)
Theorem fetchUtilities_replaces_utility_lines :
  forall cols m y fails s d,
    let s' := fetchUtilities cols m y fails s d in
    set_invoiceItems (CreateInvoiceForm.invoiceItems s') s = s'
    /\ filter (fun item => negb (CreateInvoiceForm.is_type utility item))
              (CreateInvoiceForm.invoiceItems s')
       = filter (fun item => negb (CreateInvoiceForm.is_type utility item))
                (CreateInvoiceForm.invoiceItems s)
    /\ (forall unit,
          CreateInvoiceForm.selectedUnitId s = Some unit -> fails = false ->
          saved_utilities cols unit m y d <> [] ->
          filter (CreateInvoiceForm.is_type utility) (CreateInvoiceForm.invoiceItems s')
          = map (utility_line cols) (saved_utilities cols unit m y d)
          /\ forall item,
               In item (CreateInvoiceForm.invoiceItems s') ->
               CreateInvoiceForm.type item = utility ->
               exists r,
                 In r (utilities d) /\ src_status r = saved
                 /\ utility_unit_id cols (src_id r) = unit
                 /\ utility_month cols (src_id r) = m
                 /\ utility_year cols (src_id r) = y
                 /\ CreateInvoiceForm.amount item = src_amount r
                 /\ CreateInvoiceForm.reference_id item = Some (src_id r))
    /\ ((CreateInvoiceForm.selectedUnitId s = None \/ fails = true
         \/ exists unit, CreateInvoiceForm.selectedUnitId s = Some unit
                         /\ saved_utilities cols unit m y d = []) ->
        s' = s)
    /\ fetchUtilities cols m y fails s' d = s'.
Proof.
  intros cols m y fails s d s'.
  assert (Hitems := fetchUtilities_items cols m y fails s d). fold s' in Hitems.
  split; [symmetry; apply fetchUtilities_fields|].
  split.
  { rewrite Hitems. destruct (CreateInvoiceForm.selectedUnitId s); [|reflexivity].
    destruct fails; [reflexivity|].
    destruct (saved_utilities cols u m y d) as [|r0 rs]; [reflexivity|].
    rewrite filter_app, filter_filter_same.
    rewrite (proj1 (proj2 (utility_lines_only cols (r0 :: rs)))).
    apply app_nil_r. }
  split.
  { intros unit Hu Hf Hne. rewrite Hitems, Hu, Hf.
    destruct (saved_utilities cols unit m y d) as [|r0 rs] eqn:Es; [congruence|].
    assert (Hfil : filter (CreateInvoiceForm.is_type utility)
               (filter (fun item => negb (CreateInvoiceForm.is_type utility item))
                       (CreateInvoiceForm.invoiceItems s)
                ++ map (utility_line cols) (r0 :: rs))
             = map (utility_line cols) (r0 :: rs)).
    { rewrite filter_app, filter_type_of_rest.
      rewrite (proj1 (utility_lines_only cols (r0 :: rs))). reflexivity. }
    split; [exact Hfil|].
    intros item Hin Ht.
    assert (Hin' : In item (map (utility_line cols) (r0 :: rs))).
    { rewrite <- Hfil. apply filter_In. split; [exact Hin|].
      unfold CreateInvoiceForm.is_type. rewrite Ht. reflexivity. }
    apply in_map_iff in Hin'. destruct Hin' as [r [E Hr]]. rewrite <- Es in Hr.
    apply saved_utilities_In in Hr. destruct Hr as [A [B [C [D F]]]].
    exists r. subst item. repeat split; assumption. }
  split.
  { intros H. unfold s', fetchUtilities.
    destruct H as [H|[H|[unit [H1 H2]]]].
    - rewrite H. reflexivity.
    - rewrite H. destruct (CreateInvoiceForm.selectedUnitId s); reflexivity.
    - rewrite H1, H2. destruct fails; reflexivity. }
  { rewrite (fetchUtilities_fields cols m y fails s' d).
    rewrite (fetchUtilities_items cols m y fails s' d).
    assert (Hunit : CreateInvoiceForm.selectedUnitId s' = CreateInvoiceForm.selectedUnitId s).
    { unfold s', fetchUtilities. destruct (CreateInvoiceForm.selectedUnitId s) eqn:E;
        [|exact E].
      destruct fails; [exact E|].
      destruct (saved_utilities cols u m y d); [exact E|simpl; exact E]. }
    rewrite Hunit.
    destruct (CreateInvoiceForm.selectedUnitId s) as [unit|] eqn:Eu;
      [|apply set_invoiceItems_same].
    destruct fails; [apply set_invoiceItems_same|].
    destruct (saved_utilities cols unit m y d) as [|r0 rs] eqn:Es;
      [apply set_invoiceItems_same|].
    rewrite Hitems at 1.
    rewrite filter_app, filter_filter_same.
    rewrite (proj1 (proj2 (utility_lines_only cols (r0 :: rs)))), app_nil_r.
    rewrite <- Hitems. apply set_invoiceItems_same. }
Qed.




Lemma calculateTotals_items_only s s' :
  CreateInvoiceForm.invoiceItems s' = CreateInvoiceForm.invoiceItems s ->
  CreateInvoiceForm.subtotal (CreateInvoiceForm.calculateTotals s')
  == CreateInvoiceForm.subtotal (CreateInvoiceForm.calculateTotals s).
Proof. intros E. rewrite !calculateTotals_subtotal, E. reflexivity. Qed.





Lemma saved_after_mark (p : uuid -> bool) ids t :
  filter (fun r => p (src_id r) && is_saved r) (mark_invoiced ids t)
  = filter (fun r => negb (existsb (Nat.eqb (src_id r)) ids))
           (filter (fun r => p (src_id r) && is_saved r) t).
Proof.
  unfold mark_invoiced. induction t as [|r t IH]; [reflexivity|].
  cbn [map filter]. destruct (existsb (Nat.eqb (src_id r)) ids) eqn:Ex.
  - cbn [src_id src_status is_saved]. rewrite andb_false_r.
    destruct (p (src_id r) && is_saved r); [|exact IH].
    cbn [filter]. rewrite Ex. exact IH.
  - destruct (p (src_id r) && is_saved r); [|exact IH].
    cbn [filter]. rewrite Ex. cbn [negb]. rewrite IH. reflexivity.
Qed.

Lemma mark_none t : mark_invoiced [] t = t.
Proof.
  unfold mark_invoiced. rewrite <- (map_id t) at 2. apply map_ext. reflexivity.
Qed.

Lemma flip_sources_tables w s d :
  utilities (CreateInvoiceForm.flip_sources w s d)
  = (if CreateInvoiceForm.utilities_request_fails w then utilities d
     else mark_invoiced
            (CreateInvoiceForm.reference_ids utility (CreateInvoiceForm.invoiceItems s))
            (utilities d))
  /\ deposits (CreateInvoiceForm.flip_sources w s d)
     = (if CreateInvoiceForm.deposits_request_fails w then deposits d
        else mark_invoiced
               (CreateInvoiceForm.reference_ids deposit (CreateInvoiceForm.invoiceItems s))
               (deposits d)).
Proof.
  unfold CreateInvoiceForm.flip_sources.
  destruct (CreateInvoiceForm.reference_ids utility _) as [|u0 us],
           (CreateInvoiceForm.reference_ids deposit _) as [|d0 ds],
           (CreateInvoiceForm.utilities_request_fails w),
           (CreateInvoiceForm.deposits_request_fails w);
    rewrite ?mark_none; split; reflexivity.
Qed.

(** X18.  After a successful submission the rows offered by the utilities
    query are the rows offered before minus those the invoice refers to, and
    likewise for deposits, so a later fetch adds no line for a source just
    invoiced.  This rests on the status update going through: when it is
    turned down the invoice is created all the same and the same rows are
    offered again. *)
Theorem invoiced_sources_are_not_offered_again :
  forall ucols dcols m y w s d d' inv,
    CreateInvoiceForm.handleSubmit w s d = (d', CreateInvoiceForm.Created inv) ->
    let utilityIds :=
      CreateInvoiceForm.reference_ids utility (CreateInvoiceForm.invoiceItems s) in
    let depositIds :=
      CreateInvoiceForm.reference_ids deposit (CreateInvoiceForm.invoiceItems s) in
    (forall unit,
       saved_utilities ucols unit m y d'
       = if CreateInvoiceForm.utilities_request_fails w
         then saved_utilities ucols unit m y d
         else filter (fun r => negb (existsb (Nat.eqb (src_id r)) utilityIds))
                     (saved_utilities ucols unit m y d))
    /\ (forall unit,
          saved_deposits dcols unit d'
          = if CreateInvoiceForm.deposits_request_fails w
            then saved_deposits dcols unit d
            else filter (fun r => negb (existsb (Nat.eqb (src_id r)) depositIds))
                        (saved_deposits dcols unit d))
    /\ (CreateInvoiceForm.utilities_request_fails w = false ->
        forall fails s0 item ref,
          In item (CreateInvoiceForm.invoiceItems (fetchUtilities ucols m y fails s0 d')) ->
          ~ In item (CreateInvoiceForm.invoiceItems s0) ->
          CreateInvoiceForm.reference_id item = Some ref ->
          ~ In ref utilityIds)
    /\ (CreateInvoiceForm.deposits_request_fails w = false ->
        forall fails s0 item ref,
          In item (CreateInvoiceForm.invoiceItems (fetchDeposits dcols fails s0 d')) ->
          ~ In item (CreateInvoiceForm.invoiceItems s0) ->
          CreateInvoiceForm.reference_id item = Some ref ->
          ~ In ref depositIds).
Proof.
  intros ucols dcols m y w s d d' inv H utilityIds depositIds.
  destruct (handleSubmit_created w s d d' inv H) as [d1 [d2 [_ [Hinv [Hit Hd']]]]].
  destruct (insert_invoice_items_sources _ _ _ Hit) as [A B].
  apply insert_invoice_stored in Hinv. destruct Hinv as [_ [_ [_ [_ [C [D _]]]]]].
  destruct (flip_sources_tables w s d2) as [Fu Fd].
  rewrite <- Hd', A, C in Fu. rewrite <- Hd', B, D in Fd.
  assert (Su : forall unit,
       saved_utilities ucols unit m y d'
       = if CreateInvoiceForm.utilities_request_fails w
         then saved_utilities ucols unit m y d
         else filter (fun r => negb (existsb (Nat.eqb (src_id r)) utilityIds))
                     (saved_utilities ucols unit m y d)).
  { intros unit. unfold saved_utilities. rewrite Fu.
    destruct (CreateInvoiceForm.utilities_request_fails w); [reflexivity|].
    exact (saved_after_mark
             (fun k => Nat.eqb (utility_unit_id ucols k) unit
                       && Z.eqb (utility_month ucols k) m
                       && Z.eqb (utility_year ucols k) y)
             utilityIds (utilities d)). }
  assert (Sd : forall unit,
          saved_deposits dcols unit d'
          = if CreateInvoiceForm.deposits_request_fails w
            then saved_deposits dcols unit d
            else filter (fun r => negb (existsb (Nat.eqb (src_id r)) depositIds))
                        (saved_deposits dcols unit d)).
  { intros unit. unfold saved_deposits. rewrite Fd.
    destruct (CreateInvoiceForm.deposits_request_fails w); [reflexivity|].
    exact (saved_after_mark
             (fun k => Nat.eqb (deposit_unit_id dcols k) unit)
             depositIds (deposits d)). }
  split; [exact Su|]. split; [exact Sd|]. split.
  - intros Hf fails s0 item ref Hin Hnew Href Hbad.
    rewrite fetchUtilities_items in Hin.
    destruct (CreateInvoiceForm.selectedUnitId s0) as [unit|]; [|exact (Hnew Hin)].
    destruct fails; [exact (Hnew Hin)|].
    specialize (Su unit). rewrite Hf in Su.
    destruct (saved_utilities ucols unit m y d') as [|r0 rs] eqn:Es; [exact (Hnew Hin)|].
    apply in_app_or in Hin. destruct Hin as [Hin|Hin].
    + apply filter_In in Hin. exact (Hnew (proj1 Hin)).
    + apply in_map_iff in Hin. destruct Hin as [r [E Hr]]. subst item.
      cbn [utility_line CreateInvoiceForm.reference_id] in Href.
      inversion Href; subst ref. rewrite Su in Hr. apply filter_In in Hr.
      destruct Hr as [_ Hr].
      assert (Hex : existsb (Nat.eqb (src_id r)) utilityIds = true).
      { apply existsb_exists. exists (src_id r). split; [exact Hbad|apply Nat.eqb_refl]. }
      rewrite Hex in Hr. discriminate Hr.
  - intros Hf fails s0 item ref Hin Hnew Href Hbad.
    rewrite fetchDeposits_items in Hin.
    destruct (CreateInvoiceForm.selectedUnitId s0) as [unit|]; [|exact (Hnew Hin)].
    destruct fails; [exact (Hnew Hin)|].
    specialize (Sd unit). rewrite Hf in Sd.
    destruct (saved_deposits dcols unit d') as [|r0 rs] eqn:Es; [exact (Hnew Hin)|].
    apply in_app_or in Hin. destruct Hin as [Hin|Hin].
    + apply filter_In in Hin. exact (Hnew (proj1 Hin)).
    + apply in_map_iff in Hin. destruct Hin as [r [E Hr]]. subst item.
      cbn [deposit_line CreateInvoiceForm.reference_id] in Href.
      inversion Href; subst ref. rewrite Sd in Hr. apply filter_In in Hr.
      destruct Hr as [_ Hr].
      assert (Hex : existsb (Nat.eqb (src_id r)) depositIds = true).
      { apply existsb_exists. exists (src_id r). split; [exact Hbad|apply Nat.eqb_refl]. }
      rewrite Hex in Hr. discriminate Hr.
Qed.

(* ================================================================== *)
(** * The further properties at work on the sample data *)


Lemma item_statement_touches_only_its_invoices_witness :
  In (Some 1%nat) (affected (ItemSetStatus 11 void) Sample.two_items_db)
  /\ In (mk_invoice 1 "INV-20250223-0001" 1000 184 1184 sent)
        (invoices (step (ItemSetStatus 11 void) Sample.two_items_db))
  /\ exists inv,
       In inv (invoices Sample.two_items_db)
       /\ 184 = tax_amount inv /\ sent = inv_status inv.
Proof.
  split; [left; reflexivity|].
  assert (Hin : In (mk_invoice 1 "INV-20250223-0001" 1000 184 1184 sent)
                   (invoices (step (ItemSetStatus 11 void) Sample.two_items_db)))
    by (left; reflexivity).
  split; [exact Hin|].
  destruct (item_statement_touches_only_its_invoices
              (ItemSetStatus 11 void) Sample.two_items_db) as [_ H].
  destruct (H _ Hin) as [inv [Hinv [_ [_ [Ht [Hs _]]]]]].
  exists inv. split; [exact Hinv|]. split; [exact Ht|exact Hs].
Defined.


Lemma bulk_insert_all_or_nothing_witness :
  (exists d', insert_invoice_items [Scenario.late_fee] Sample.two_items_db = Some d')
  /\ row_acceptable Sample.two_items_db Scenario.late_fee.
Proof.
  assert (Hex : exists d',
            insert_invoice_items [Scenario.late_fee] Sample.two_items_db = Some d')
    by (eexists; reflexivity).
  split; [exact Hex|].
  destruct (bulk_insert_all_or_nothing [Scenario.late_fee] Sample.two_items_db)
    as [[H _] _].
  exact (proj1 (H Hex) _ (or_introl eq_refl)).
Defined.

Lemma insert_then_delete_restores_witness :
  exists d1,
    insert_invoice_items [Scenario.late_fee] Sample.two_items_db = Some d1
    /\ invoice_items (delete_invoice_item 12 d1) = invoice_items Sample.two_items_db.
Proof.
  destruct (insert_invoice_items [Scenario.late_fee] Sample.two_items_db)
    as [d1|] eqn:E; [|discriminate E].
  exists d1. split; [reflexivity|].
  exact (proj1 (proj2 (insert_then_delete_restores Scenario.late_fee
                         Sample.two_items_db d1 E))).
Defined.

Lemma void_invoice_item_round_trips_witness :
  (forall it, In it (invoice_items Sample.two_items_db) -> item_id it = 11%nat ->
              item_st it = active)
  /\ invoice_items (update_item_status 11 active
                      (void_invoice_item 11 Sample.two_items_db))
     = invoice_items Sample.two_items_db.
Proof.
  assert (Hact : forall it, In it (invoice_items Sample.two_items_db) ->
                            item_id it = 11%nat -> item_st it = active).
  { intros it [E|[E|[]]] _; subst it; reflexivity. }
  split; [exact Hact|].
  destruct (void_invoice_item_round_trips 11%nat Sample.two_items_db) as [_ [_ H]].
  exact (proj1 (H Hact)).
Defined.

Lemma invoice_number_decodes_witness :
  generate_invoice_number "20250223" Sample.one_item_db
  = (Some "INV-20250223-0002"%string, snd (nextval Sample.one_item_db))
  /\ generate_invoice_number "20250223" Sample.two_items_db
     = (Some "INV-20250223-0002"%string, snd (nextval Sample.two_items_db))
  /\ ("20250223"%string = "20250223"%string
      /\ invoice_number_seq Sample.one_item_db = invoice_number_seq Sample.two_items_db).
Proof.
  split; [reflexivity|]. split; [reflexivity|].
  refine (invoice_number_decodes "20250223" "20250223"
            Sample.one_item_db Sample.two_items_db _ _ _ _ _ _ eq_refl eq_refl eq_refl
            eq_refl).
  - simpl. lia.
  - simpl. lia.
Defined.

Lemma invoice_insert_keeps_keys_witness :
  NoDup (map invoice_number (invoices Sample.one_item_db))
  /\ NoDup (map invoice_number
              (invoices (fst (insert_invoice "20250223" 2 None 0 0 0 draft
                                Sample.one_item_db)))).
Proof.
  assert (Hnd : NoDup (map invoice_number (invoices Sample.one_item_db))).
  { repeat constructor. intros []. }
  split; [exact Hnd|].
  destruct (invoice_insert_keeps_keys "20250223" 2%nat None 0 0 0 draft
              Sample.one_item_db _ _ eq_refl) as [H _].
  exact (H Hnd).
Defined.

Lemma paid_stays_paid_witness :
  exists d',
    insert_payments [ mk_payment 2%nat (Some 1%nat) 50 confirmed;
                      mk_payment 3%nat None 20 confirmed ] Scenario.paid_db = Some d'
    /\ 1000 <= total_paid_of 1 d' /\ status_is 1 paid d'.
Proof.
  destruct (insert_payments [ mk_payment 2%nat (Some 1%nat) 50 confirmed;
                              mk_payment 3%nat None 20 confirmed ] Scenario.paid_db)
    as [d'|] eqn:E; [|discriminate E].
  exists d'. split; [reflexivity|].
  refine (proj2 (paid_stays_paid _ Scenario.paid_db d' 1%nat 1000 eq_refl _ _ E)).
  - vm_compute. discriminate.
  - intros inv [E1|[]] _. subst inv. reflexivity.
Defined.

Lemma delete_invoice_leaves_no_orphan_witness :
  invoice_exists 1 Sample.part_paid_db = true
  /\ invoice_exists 1 (InvoiceList.handleDelete true false 1 Sample.part_paid_db) = false
  /\ map pay_amount (payments (InvoiceList.handleDelete true false 1 Sample.part_paid_db))
     = map pay_amount (payments Sample.part_paid_db).
Proof.
  split; [reflexivity|].
  destruct (delete_invoice_leaves_no_orphan 1%nat Sample.part_paid_db) as [_ [_ [H _]]].
  destruct (H eq_refl) as [A [_ [_ [_ [_ [_ [B _]]]]]]].
  split; [exact A|exact B].
Defined.

Lemma created_invoice_payable_once_sent_witness :
  CreateInvoiceForm.handleSubmit Sample.office Sample.rent_and_water Sample.sources_db
  = (fst (CreateInvoiceForm.handleSubmit Sample.office Sample.rent_and_water
            Sample.sources_db),
     CreateInvoiceForm.Created
       (mk_invoice 100 "INV-20250223-0001" 1150 (18400 # 100) (133400 # 100) draft))
  /\ In (mk_invoice 100 "INV-20250223-0001" 1150 (18400 # 100) (133400 # 100) sent)
        (MakePaymentForm.fetchInvoices (fun _ => 3%nat) (fun l => l)
           (Some 2%nat) (Some 3%nat) false []
           (ViewInvoiceModal.handleSendInvoice
              (Some (mk_invoice 100 "INV-20250223-0001" 1150 (18400 # 100)
                                (133400 # 100) draft))
              false 100
              (fst (CreateInvoiceForm.handleSubmit Sample.office Sample.rent_and_water
                      Sample.sources_db)))).
Proof.
  split; [reflexivity|].
  destruct (created_invoice_payable_once_sent (fun _ => 3%nat) (fun l => l)
              Sample.office Sample.rent_and_water Sample.sources_db _
              (mk_invoice 100 "INV-20250223-0001" 1150 (18400 # 100) (133400 # 100) draft)
              2%nat 3%nat []
              (fun l x => conj (fun H => H) (fun H => H)) eq_refl eq_refl)
    as [_ [H _]].
  exact (proj2 (H (mk_invoice 100 "INV-20250223-0001" 1150 (18400 # 100)
                              (133400 # 100) sent)
                  (or_introl eq_refl) eq_refl)).
Defined.

Lemma invoice_selection_toggles_witness :
  NoDup [1%nat; 2%nat; 3%nat]
  /\ NoDup (MakePaymentForm.handleInvoiceSelection 2 [1%nat; 2%nat; 3%nat]).
Proof.
  assert (Hnd : NoDup [1%nat; 2%nat; 3%nat]).
  { repeat constructor; simpl; intuition discriminate. }
  split; [exact Hnd|].
  destruct (invoice_selection_toggles 2%nat [1%nat; 2%nat; 3%nat]) as [_ [_ [H _]]].
  exact (H Hnd).
Defined.




Lemma failed_payment_submission_keeps_prefix_witness :
  snd (MakePaymentForm.handleSubmit Scenario.desk_second_down Scenario.pay_both
         Scenario.two_invoices_db) = MakePaymentForm.Failed
  /\ map pay_amount
       (payments (fst (MakePaymentForm.handleSubmit Scenario.desk_second_down
                         Scenario.pay_both Scenario.two_invoices_db)))
     = [1000]
  /\ exists done rest news,
       [1%nat; 2%nat] = done ++ rest
       /\ payments (fst (MakePaymentForm.handleSubmit Scenario.desk_second_down
                           Scenario.pay_both Scenario.two_invoices_db))
          = payments Scenario.two_invoices_db ++ news
       /\ map pay_amount news = due Scenario.pay_both done.
Proof.
  split; [reflexivity|]. split; [reflexivity|].
  destruct (failed_payment_submission_keeps_prefix Scenario.desk_second_down
              Scenario.pay_both Scenario.two_invoices_db _ eq_refl)
    as [done [rest [news [A [_ [B [C _]]]]]]].
  exists done, rest, news. split; [exact A|]. split; [exact B|exact C].
Defined.

Lemma fetchUtilities_replaces_utility_lines_witness :
  saved_utilities Scenario.meter 2 2 2025 Sample.sources_db <> []
  /\ filter (CreateInvoiceForm.is_type utility)
            (CreateInvoiceForm.invoiceItems
               (fetchUtilities Scenario.meter 2 2025 false Scenario.stale_draft
                  Sample.sources_db))
     = [CreateInvoiceForm.mk_InvoiceItem utility "Water - 2/2025" 150 (Some 70%nat)].
Proof.
  assert (Hne : saved_utilities Scenario.meter 2 2 2025 Sample.sources_db <> [])
    by discriminate.
  split; [exact Hne|].
  destruct (fetchUtilities_replaces_utility_lines Scenario.meter 2 2025 false
              Scenario.stale_draft Sample.sources_db) as [_ [_ [H _]]].
  exact (proj1 (H 2%nat eq_refl eq_refl Hne)).
Defined.


Lemma invoiced_sources_are_not_offered_again_witness :
  saved_utilities Scenario.meter 2 2 2025 Sample.sources_db
  = [mk_source 70 150 saved]
  /\ saved_utilities Scenario.meter 2 2 2025
       (fst (CreateInvoiceForm.handleSubmit Sample.office Sample.rent_and_water
               Sample.sources_db))
     = [].
Proof.
  split; [reflexivity|].
  destruct (invoiced_sources_are_not_offered_again Scenario.meter Scenario.held 2 2025
              Sample.office Sample.rent_and_water Sample.sources_db _ _ eq_refl)
    as [H _].
  exact (H 2%nat).
Defined.
